(** * Quiz Master backend: a shallow embedding of Backend/Database.js and
    Backend/Server.js, and the properties of its request handlers.

    Conventions of the embedding.

    - JavaScript values that reach the handlers through a JSON body are
      [jsval]: [undefined] (an absent member), [null], booleans, integers
      and strings.  [NaN] is added because [parseInt] of a path segment can
      produce it.  Fractional numbers, arrays and objects in scalar positions
      are outside the type.  A string is the UTF-8 encoding of well-formed
      Unicode text: [js_length] counts its UTF-16 code units, as the
      [length] property does, and [trim] strips the white space of
      ECMAScript.
    - The SQLite store is four lists of rows in insertion order plus the
      AUTOINCREMENT counters.  Columns hold [sqlval]s exactly as the driver
      binds them; SQLite's column-affinity coercions are not modelled.
      The store therefore agrees with SQLite where TEXT columns receive
      strings and INTEGER columns receive integers, and the properties
      below say so where a request could send anything else.
      The rows do not carry the [created_at] and [completed_at] timestamp
      columns; the two queries that sort on them take the column as a
      function of the row id.
    - A statement may fail when the driver runs it, for reasons outside
      the program (SQLITE_BUSY, SQLITE_FULL and the like).  The [world]
      carries, next to the store, one flag per upcoming statement saying
      whether the driver reports such an error; an exhausted list means no
      further errors.  Errors raised while a statement is prepared, before
      it runs, are not modelled.
    - Callbacks are continuations of a state monad over [world]. *)

From Stdlib Require Import List ZArith Lia Bool String Ascii Permutation.
From Stdlib Require Import Sorted.
Import ListNotations.
Open Scope Z_scope.

(** ** JavaScript values *)

Inductive jsval : Type :=
| JUndefined
| JNull
| JNaN
| JBool (b : bool)
| JNum (n : Z)
| JStr (s : string).

(** ToBoolean. *)
Definition truthy (v : jsval) : bool :=
  match v with
  | JUndefined | JNull | JNaN => false
  | JBool b => b
  | JNum n => negb (n =? 0)
  | JStr s => negb (s =? "")%string
  end.

(** [a || b] *)
Definition js_or (a b : jsval) : jsval := if truthy a then a else b.

(** [arr[i]]: reading past the end of an array yields [undefined]. *)
Definition js_index (arr : list jsval) (i : nat) : jsval :=
  nth i arr JUndefined.

(** The [length] of a string: one UTF-16 code unit per code point, two
    for a code point beyond U+FFFF.  In UTF-8 a byte 10xxxxxx continues a
    code point and a byte 11110xxx starts one beyond U+FFFF. *)
Definition utf16_units (c : ascii) : nat :=
  let n := nat_of_ascii c in
  if (Nat.leb 128 n && Nat.leb n 191)%bool then 0%nat
  else if Nat.leb 240 n then 2%nat
  else 1%nat.

Fixpoint js_length (s : string) : nat :=
  match s with
  | EmptyString => 0%nat
  | String c s' => (utf16_units c + js_length s')%nat
  end.

(** String.prototype.trim.  The white space of ECMAScript is TAB, LF, VT,
    FF, CR and SP (one byte each), U+00A0 (bytes C2 A0), and, in three
    bytes each, U+1680, U+2000 to U+200A, U+2028, U+2029, U+202F, U+205F,
    U+3000 and U+FEFF. *)
Definition is_white_space (c : ascii) : bool :=
  let n := nat_of_ascii c in
  (Nat.eqb n 32 || (Nat.leb 9 n && Nat.leb n 13))%bool.

Definition is_white_space_2 (a b : ascii) : bool :=
  (Nat.eqb (nat_of_ascii a) 194 && Nat.eqb (nat_of_ascii b) 160)%bool.

Definition is_white_space_3 (a b c : ascii) : bool :=
  let x := nat_of_ascii a in
  let y := nat_of_ascii b in
  let z := nat_of_ascii c in
  ((Nat.eqb x 225 && Nat.eqb y 154 && Nat.eqb z 128)
   || (Nat.eqb x 226 && Nat.eqb y 128
       && ((Nat.leb 128 z && Nat.leb z 138)
           || Nat.eqb z 168 || Nat.eqb z 169 || Nat.eqb z 175))
   || (Nat.eqb x 226 && Nat.eqb y 129 && Nat.eqb z 159)
   || (Nat.eqb x 227 && Nat.eqb y 128 && Nat.eqb z 128)
   || (Nat.eqb x 239 && Nat.eqb y 187 && Nat.eqb z 191))%bool.

Fixpoint trimStart (s : string) : string :=
  match s with
  | EmptyString => EmptyString
  | String a r1 =>
      if is_white_space a then trimStart r1
      else
        match r1 with
        | EmptyString => s
        | String b r2 =>
            if is_white_space_2 a b then trimStart r2
            else
              match r2 with
              | EmptyString => s
              | String c r3 =>
                  if is_white_space_3 a b c then trimStart r3 else s
              end
        end
  end.

(** The string consists of white space only. *)
Fixpoint all_white_space (s : string) : bool :=
  match s with
  | EmptyString => true
  | String a r1 =>
      if is_white_space a then all_white_space r1
      else
        match r1 with
        | EmptyString => false
        | String b r2 =>
            if is_white_space_2 a b then all_white_space r2
            else
              match r2 with
              | EmptyString => false
              | String c r3 =>
                  (is_white_space_3 a b c && all_white_space r3)%bool
              end
        end
  end.

Fixpoint trimEnd (s : string) : string :=
  match s with
  | EmptyString => EmptyString
  | String c s' =>
      if all_white_space s then EmptyString else String c (trimEnd s')
  end.

Definition trim (s : string) : string := trimEnd (trimStart s).

(** ** SQL values, parameter binding and comparison *)

Inductive sqlval : Type :=
| SNull
| SInt (n : Z)
| SText (s : string).

(** How the driver binds a JavaScript value to a [?] placeholder:
    [undefined] leaves the placeholder unbound, which SQLite reads as NULL;
    NaN is stored as NULL; booleans become 0 and 1. *)
Definition bind_param (v : jsval) : sqlval :=
  match v with
  | JUndefined | JNull | JNaN => SNull
  | JBool b => SInt (if b then 1 else 0)
  | JNum n => SInt n
  | JStr s => SText s
  end.

(** How a column value comes back in a result row. *)
Definition column_value (v : sqlval) : jsval :=
  match v with
  | SNull => JNull
  | SInt n => JNum n
  | SText s => JStr s
  end.

Definition is_null (v : sqlval) : bool :=
  match v with SNull => true | _ => false end.

(** [a = b] in a WHERE clause or a UNIQUE check: NULL equals nothing. *)
Definition sql_eq (a b : sqlval) : bool :=
  match a, b with
  | SInt x, SInt y => x =? y
  | SText x, SText y => (x =? y)%string
  | _, _ => false
  end.

(** The order used by ORDER BY: NULL first, then integers, then text. *)
Definition sql_le (a b : sqlval) : bool :=
  match a, b with
  | SNull, _ => true
  | SInt _, SNull => false
  | SInt x, SInt y => x <=? y
  | SInt _, SText _ => true
  | SText x, SText y => String.leb x y
  | SText _, _ => false
  end.

(** ORDER BY as a stable insertion sort. *)
Fixpoint insert_by {A : Type} (le : A -> A -> bool) (x : A) (l : list A)
  : list A :=
  match l with
  | [] => [x]
  | y :: l' => if le x y then x :: l else y :: insert_by le x l'
  end.

Definition sort_by {A : Type} (le : A -> A -> bool) (l : list A) : list A :=
  fold_right (insert_by le) [] l.

(** ** The store *)

Record user_row : Type := {
  users_id : Z;
  users_username : sqlval;
  users_email : sqlval;
  users_password : sqlval
}.

Record quiz_row : Type := {
  quizzes_id : Z;
  quizzes_title : sqlval;
  quizzes_description : sqlval;
  quizzes_time_limit : sqlval;
  quizzes_user_id : sqlval
}.

Record question_row : Type := {
  questions_id : Z;
  questions_quiz_id : sqlval;
  questions_question_text : sqlval;
  questions_option_a : sqlval;
  questions_option_b : sqlval;
  questions_option_c : sqlval;
  questions_option_d : sqlval;
  questions_correct_answer : sqlval;
  questions_question_order : sqlval
}.

Record result_row : Type := {
  quiz_results_id : Z;
  quiz_results_quiz_id : sqlval;
  quiz_results_user_id : sqlval;
  quiz_results_score : sqlval;
  quiz_results_total_questions : sqlval;
  quiz_results_time_taken : sqlval;
  quiz_results_answers : sqlval
}.

Record store : Type := {
  users : list user_row;
  quizzes : list quiz_row;
  questions : list question_row;
  quiz_results : list result_row;
  seq_users : Z;
  seq_quizzes : Z;
  seq_questions : Z;
  seq_quiz_results : Z
}.

Definition empty_store : store :=
  {| users := []; quizzes := []; questions := []; quiz_results := [];
     seq_users := 0; seq_quizzes := 0; seq_questions := 0;
     seq_quiz_results := 0 |}.

Definition insert_user (r : user_row) (s : store) : store :=
  {| users := users s ++ [r]; quizzes := quizzes s;
     questions := questions s; quiz_results := quiz_results s;
     seq_users := users_id r; seq_quizzes := seq_quizzes s;
     seq_questions := seq_questions s;
     seq_quiz_results := seq_quiz_results s |}.

Definition insert_quiz (r : quiz_row) (s : store) : store :=
  {| users := users s; quizzes := quizzes s ++ [r];
     questions := questions s; quiz_results := quiz_results s;
     seq_users := seq_users s; seq_quizzes := quizzes_id r;
     seq_questions := seq_questions s;
     seq_quiz_results := seq_quiz_results s |}.

Definition insert_question (r : question_row) (s : store) : store :=
  {| users := users s; quizzes := quizzes s;
     questions := questions s ++ [r]; quiz_results := quiz_results s;
     seq_users := seq_users s; seq_quizzes := seq_quizzes s;
     seq_questions := questions_id r;
     seq_quiz_results := seq_quiz_results s |}.

Definition insert_result (r : result_row) (s : store) : store :=
  {| users := users s; quizzes := quizzes s;
     questions := questions s; quiz_results := quiz_results s ++ [r];
     seq_users := seq_users s; seq_quizzes := seq_quizzes s;
     seq_questions := seq_questions s;
     seq_quiz_results := quiz_results_id r |}.

Definition set_questions (l : list question_row) (s : store) : store :=
  {| users := users s; quizzes := quizzes s;
     questions := l; quiz_results := quiz_results s;
     seq_users := seq_users s; seq_quizzes := seq_quizzes s;
     seq_questions := seq_questions s;
     seq_quiz_results := seq_quiz_results s |}.

Definition set_quizzes (l : list quiz_row) (s : store) : store :=
  {| users := users s; quizzes := l;
     questions := questions s; quiz_results := quiz_results s;
     seq_users := seq_users s; seq_quizzes := seq_quizzes s;
     seq_questions := seq_questions s;
     seq_quiz_results := seq_quiz_results s |}.

(** ** The world and its monad *)

Record world : Type := {
  db : store;
  faults : list bool
}.

Definition M (A : Type) : Type := world -> A * world.

Definition ret {A : Type} (a : A) : M A := fun w => (a, w).

Definition bind {A B : Type} (m : M A) (k : A -> M B) : M B :=
  fun w => let (a, w') := m w in k a w'.

Notation "x <- m ;; k" := (bind m (fun x => k))
  (at level 61, m at next level, right associativity).
Notation "m ;;; k" := (bind m (fun _ => k))
  (at level 61, right associativity).

Definition get_store : M store := fun w => (db w, w).

Definition put_store (s : store) : M unit :=
  fun w => (tt, {| db := s; faults := faults w |}).

(** The driver takes one statement; the answer is whether it reports an
    opaque error for it. *)
Definition statement_error : M bool :=
  fun w =>
    match faults w with
    | [] => (false, w)
    | f :: fs => (f, {| db := db w; faults := fs |})
    end.

(** Left fold of a monadic step over a list. *)
Fixpoint foldM {A B : Type} (f : A -> B -> M A) (a : A) (l : list B) : M A :=
  match l with
  | [] => ret a
  | x :: l' => a' <- f a x ;; foldM f a' l'
  end.

(** The two-argument callback convention [(err, value)]. *)
Inductive dbres (A : Type) : Type :=
| DbErr
| DbOk (a : A).
Arguments DbErr {A}.
Arguments DbOk {A} a.

Definition is_err {A : Type} (r : dbres A) : bool :=
  match r with DbErr => true | DbOk _ => false end.

(** ** Backend/Database.js *)

Module Database.

(** INSERT INTO users: username, email and password are NOT NULL, username
    and email are UNIQUE. *)
Definition createUser (username email password : jsval) : M (dbres Z) :=
  err <- statement_error ;;
  if err then ret DbErr else
  s <- get_store ;;
  let row := {| users_id := seq_users s + 1;
                users_username := bind_param username;
                users_email := bind_param email;
                users_password := bind_param password |} in
  if (is_null (users_username row) || is_null (users_email row)
      || is_null (users_password row)
      || existsb (fun r => sql_eq (users_username r) (users_username row)
                           || sql_eq (users_email r) (users_email row))
                 (users s))%bool
  then ret DbErr
  else put_store (insert_user row s) ;;; ret (DbOk (users_id row)).

(** SELECT * FROM users WHERE email = ? (first row). *)
Definition getUserByEmail (email : jsval) : M (dbres (option user_row)) :=
  err <- statement_error ;;
  if err then ret DbErr else
  s <- get_store ;;
  ret (DbOk (find (fun r => sql_eq (users_email r) (bind_param email))
                  (users s))).

Record quizData : Type := {
  title : jsval;
  description : jsval;
  time_limit : jsval;
  user_id : jsval
}.

(** INSERT INTO quizzes: title and user_id are NOT NULL. *)
Definition createQuiz (q : quizData) : M (dbres Z) :=
  err <- statement_error ;;
  if err then ret DbErr else
  s <- get_store ;;
  let row := {| quizzes_id := seq_quizzes s + 1;
                quizzes_title := bind_param (title q);
                quizzes_description := bind_param (description q);
                quizzes_time_limit := bind_param (time_limit q);
                quizzes_user_id := bind_param (user_id q) |} in
  if (is_null (quizzes_title row) || is_null (quizzes_user_id row))%bool
  then ret DbErr
  else put_store (insert_quiz row s) ;;; ret (DbOk (quizzes_id row)).

(** A question as [getQuizById] hands it out. *)
Record question_view : Type := {
  id : jsval;
  text : jsval;
  options : list jsval;
  correct : jsval
}.

(** The quiz row spread into an object, plus its questions. *)
Record quiz_view : Type := {
  quiz : quiz_row;
  quiz_questions : list question_view
}.

Definition keep_option (opt : jsval) : bool :=
  match opt with
  | JNull | JUndefined => false
  | JStr s => negb (s =? "")%string
  | _ => true
  end.

Definition format_question (q : question_row) : question_view :=
  {| id := JNum (questions_id q);
     text := column_value (questions_question_text q);
     options := filter keep_option
                  [column_value (questions_option_a q);
                   column_value (questions_option_b q);
                   column_value (questions_option_c q);
                   column_value (questions_option_d q)];
     correct := column_value (questions_correct_answer q) |}.

Definition order_le (a b : question_row) : bool :=
  sql_le (questions_question_order a) (questions_question_order b).

(** SELECT * FROM questions WHERE quiz_id = ? ORDER BY question_order *)
Definition select_questions (quiz_id : sqlval) (s : store)
  : list question_row :=
  sort_by order_le
    (filter (fun r => sql_eq (questions_quiz_id r) quiz_id) (questions s)).

Definition getQuizById (id : jsval) : M (dbres (option quiz_view)) :=
  err <- statement_error ;;
  if err then ret DbErr else
  s <- get_store ;;
  match find (fun r => sql_eq (SInt (quizzes_id r)) (bind_param id))
             (quizzes s) with
  | None => ret (DbOk None)
  | Some row =>
      err <- statement_error ;;
      if err then ret DbErr else
      s <- get_store ;;
      let formattedQuestions :=
        map format_question (select_questions (bind_param id) s) in
      ret (DbOk (Some {| quiz := row;
                         quiz_questions := formattedQuestions |}))
  end.

(** DELETE FROM questions WHERE quiz_id = ?, then
    DELETE FROM quizzes WHERE id = ? AND user_id = ?; the value is
    [this.changes] of the second statement. *)
Definition deleteQuiz (quizId userId : jsval) : M (dbres Z) :=
  err <- statement_error ;;
  if err then ret DbErr else
  s <- get_store ;;
  put_store
    (set_questions
       (filter (fun r => negb (sql_eq (questions_quiz_id r)
                                      (bind_param quizId)))
               (questions s)) s) ;;;
  err <- statement_error ;;
  if err then ret DbErr else
  s <- get_store ;;
  let kept :=
    filter (fun r => negb (sql_eq (SInt (quizzes_id r)) (bind_param quizId)
                           && sql_eq (quizzes_user_id r) (bind_param userId)))
           (quizzes s) in
  put_store (set_quizzes kept s) ;;;
  ret (DbOk (Z.of_nat (List.length (quizzes s)) - Z.of_nat (List.length kept))).

Record questionData : Type := {
  quiz_id : jsval;
  question_text : jsval;
  option_a : jsval;
  option_b : jsval;
  option_c : jsval;
  option_d : jsval;
  correct_answer : jsval;
  question_order : jsval
}.

(** INSERT INTO questions: every column but option_c and option_d is
    NOT NULL. *)
Definition addQuestion (q : questionData) : M (dbres unit) :=
  err <- statement_error ;;
  if err then ret DbErr else
  s <- get_store ;;
  let row := {| questions_id := seq_questions s + 1;
                questions_quiz_id := bind_param (quiz_id q);
                questions_question_text := bind_param (question_text q);
                questions_option_a := bind_param (option_a q);
                questions_option_b := bind_param (option_b q);
                questions_option_c := bind_param (option_c q);
                questions_option_d := bind_param (option_d q);
                questions_correct_answer := bind_param (correct_answer q);
                questions_question_order := bind_param (question_order q) |} in
  if (is_null (questions_quiz_id row)
      || is_null (questions_question_text row)
      || is_null (questions_option_a row)
      || is_null (questions_option_b row)
      || is_null (questions_correct_answer row)
      || is_null (questions_question_order row))%bool
  then ret DbErr
  else put_store (insert_question row s) ;;; ret (DbOk tt).

(** [answers] is carried as the JSON text of the supplied value, [None]
    when the member is absent: JSON.stringify(undefined) is undefined, and
    every value a JSON body can hold serialises to a string. *)
Definition JSON_stringify (answers : option string) : jsval :=
  match answers with
  | None => JUndefined
  | Some t => JStr t
  end.

Record resultData : Type := {
  r_quiz_id : jsval;
  r_user_id : jsval;
  r_score : jsval;
  r_total_questions : jsval;
  r_time_taken : jsval;
  r_answers : option string
}.

(** INSERT INTO quiz_results: every column is NOT NULL. *)
Definition saveResult (r : resultData) : M (dbres Z) :=
  err <- statement_error ;;
  if err then ret DbErr else
  s <- get_store ;;
  let row := {| quiz_results_id := seq_quiz_results s + 1;
                quiz_results_quiz_id := bind_param (r_quiz_id r);
                quiz_results_user_id := bind_param (r_user_id r);
                quiz_results_score := bind_param (r_score r);
                quiz_results_total_questions :=
                  bind_param (r_total_questions r);
                quiz_results_time_taken := bind_param (r_time_taken r);
                quiz_results_answers :=
                  bind_param (JSON_stringify (r_answers r)) |} in
  if (is_null (quiz_results_quiz_id row)
      || is_null (quiz_results_user_id row)
      || is_null (quiz_results_score row)
      || is_null (quiz_results_total_questions row)
      || is_null (quiz_results_time_taken row)
      || is_null (quiz_results_answers row))%bool
  then ret DbErr
  else put_store (insert_result row s) ;;; ret (DbOk (quiz_results_id row)).

(** The columns [getUserById] selects; the password is not among them. *)
Record user_info : Type := {
  info_id : Z;
  info_username : sqlval;
  info_email : sqlval
}.

(** SELECT id, username, email, created_at FROM users WHERE id = ? *)
Definition getUserById (id : jsval) : M (dbres (option user_info)) :=
  err <- statement_error ;;
  if err then ret DbErr else
  s <- get_store ;;
  ret (DbOk
         (option_map
            (fun r => {| info_id := users_id r;
                         info_username := users_username r;
                         info_email := users_email r |})
            (find (fun r => sql_eq (SInt (users_id r)) (bind_param id))
                  (users s)))).

(** ORDER BY a timestamp column DESC.  The rows of the store do not carry
    [created_at] and [completed_at]; the two queries that sort by them
    take the column as a function of the row id. *)
Definition newest_first {A : Type} (stamp : A -> sqlval) (a b : A) : bool :=
  sql_le (stamp b) (stamp a).

(** SELECT * FROM quizzes WHERE user_id = ? ORDER BY created_at DESC *)
Definition getQuizzesByUser (created_at : Z -> sqlval) (userId : jsval)
  : M (dbres (list quiz_row)) :=
  err <- statement_error ;;
  if err then ret DbErr else
  s <- get_store ;;
  ret (DbOk
         (sort_by (newest_first (fun r => created_at (quizzes_id r)))
            (filter (fun r => sql_eq (quizzes_user_id r) (bind_param userId))
                    (quizzes s)))).

(** A result row with the title of its quiz. *)
Record titled_result : Type := {
  result : result_row;
  quiz_title : sqlval
}.

(** FROM quiz_results qr JOIN quizzes q ON qr.quiz_id = q.id
    WHERE qr.user_id = ? *)
Definition join_titles (userId : sqlval) (s : store) : list titled_result :=
  flat_map
    (fun qr =>
       map (fun q => {| result := qr; quiz_title := quizzes_title q |})
           (filter (fun q => sql_eq (quiz_results_quiz_id qr)
                                    (SInt (quizzes_id q)))
                   (quizzes s)))
    (filter (fun qr => sql_eq (quiz_results_user_id qr) userId)
            (quiz_results s)).

(** SELECT qr.*, q.title as quiz_title ... ORDER BY qr.completed_at DESC *)
Definition getResultsByUser (completed_at : Z -> sqlval) (userId : jsval)
  : M (dbres (list titled_result)) :=
  err <- statement_error ;;
  if err then ret DbErr else
  s <- get_store ;;
  ret (DbOk
         (sort_by
            (newest_first
               (fun v => completed_at (quiz_results_id (result v))))
            (join_titles (bind_param userId) s))).

End Database.

(** ** bcryptjs, as the handlers use it *)

(** [bcrypt.hash] and [bcrypt.compare] on strings.  Called on anything but
    strings both report "Illegal arguments", which the handlers below turn
    into a 500. *)
Class Bcrypt : Type := {
  bcrypt_hash : string -> string;
  bcrypt_compare : string -> string -> bool
}.

(** ** Backend/Server.js *)

Module Server.
Import Database.

(** The payload [jwt.sign] seals into a bearer token. *)
Record token : Type := {
  userId : Z;
  token_username : jsval
}.

Inductive json_body : Type :=
| Error (error : string)
| InternalServerError
| Session (message : string) (tok : token) (user_id : jsval)
          (user_username user_email : jsval)
| QuizCreated (message : string) (quizId : Z)
| Quiz (q : quiz_view)
| Message (message : string)
| ResultSaved (message : string) (resultId : Z).

Record response : Type := {
  status : Z;
  json : json_body
}.

Definition reply (code : Z) (b : json_body) : response :=
  {| status := code; json := b |}.

(** A TypeError thrown inside a handler reaches the global error
    middleware. *)
Definition uncaught : response := reply 500 InternalServerError.

(** *** POST /api/register and POST /api/login *)

Record register_body : Type := {
  reg_username : jsval;
  reg_email : jsval;
  reg_password : jsval
}.

(** [password.length < 6]: only a string has a length; for any other
    truthy value the comparison is with [undefined] and is false. *)
Definition shorter_than_6 (password : jsval) : bool :=
  match password with
  | JStr s => Nat.ltb (js_length s) 6
  | _ => false
  end.

Definition post_register `{Bcrypt} (body : register_body) : M response :=
  let username := reg_username body in
  let email := reg_email body in
  let password := reg_password body in
  if (negb (truthy username) || negb (truthy email)
      || negb (truthy password))%bool
  then ret (reply 400 (Error "All fields are required"))
  else if shorter_than_6 password
  then ret (reply 400 (Error "Password must be at least 6 characters long"))
  else
    existing <- getUserByEmail email ;;
    match existing with
    | DbErr => ret (reply 500 (Error "Database error"))
    | DbOk (Some _) => ret (reply 400 (Error "User already exists"))
    | DbOk None =>
        match password with
        | JStr p =>
            created <- createUser username email (JStr (bcrypt_hash p)) ;;
            match created with
            | DbErr => ret (reply 500 (Error "Error creating user"))
            | DbOk userId =>
                ret (reply 201
                       (Session "User created successfully"
                          {| userId := userId; token_username := username |}
                          (JNum userId) username email))
            end
        | _ => ret (reply 500 (Error "Server error"))
        end
    end.

Record login_body : Type := {
  login_email : jsval;
  login_password : jsval
}.

Definition post_login `{Bcrypt} (body : login_body) : M response :=
  let email := login_email body in
  let password := login_password body in
  if (negb (truthy email) || negb (truthy password))%bool
  then ret (reply 400 (Error "Email and password are required"))
  else
    found <- getUserByEmail email ;;
    match found with
    | DbErr => ret (reply 500 (Error "Database error"))
    | DbOk None => ret (reply 400 (Error "Invalid credentials"))
    | DbOk (Some user) =>
        match password, column_value (users_password user) with
        | JStr p, JStr h =>
            if negb (bcrypt_compare p h)
            then ret (reply 400 (Error "Invalid credentials"))
            else
              ret (reply 200
                     (Session "Login successful"
                        {| userId := users_id user;
                           token_username :=
                             column_value (users_username user) |}
                        (JNum (users_id user))
                        (column_value (users_username user))
                        (column_value (users_email user))))
        | _, _ => ret (reply 500 (Error "Server error"))
        end
    end.

(** *** The authentication gate *)

(** What the Authorization header amounts to: no token in it, a token that
    [jwt.verify] rejects, or a token it accepts, with its payload. *)
Inductive authorization : Type :=
| NoToken
| InvalidToken
| Bearer (user : token).

Definition authenticateToken (a : authorization) : response + token :=
  match a with
  | NoToken => inl (reply 401 (Error "Access token required"))
  | InvalidToken => inl (reply 403 (Error "Invalid token"))
  | Bearer user => inr user
  end.

(** *** POST /api/quizzes *)

Record question : Type := {
  q_text : jsval;
  q_options : option (list jsval);
  q_correct : jsval
}.

(** The bodies considered: [questions] is absent or null ([None]) or an
    array of objects, and the [options] of a question are absent or an
    array. *)
Record quiz_body : Type := {
  b_title : jsval;
  b_description : jsval;
  b_timeLimit : jsval;
  b_questions : option (list question)
}.

(** The object built for one question inside [forEach]. *)
Definition question_data (quizId : Z) (q : question) (index : nat)
  : questionData :=
  let options := match q_options q with Some o => o | None => [] end in
  {| quiz_id := JNum quizId;
     question_text := q_text q;
     option_a := js_or (js_index options 0) (JStr "");
     option_b := js_or (js_index options 1) (JStr "");
     option_c := js_or (js_index options 2) JNull;
     option_d := js_or (js_index options 3) JNull;
     correct_answer := q_correct q;
     question_order := JNum (Z.of_nat index) |}.

(** [forEach((question, index) => ...)], collecting the statements it
    hands to the driver. *)
Fixpoint forEach_index {A B : Type} (f : A -> nat -> B) (index : nat)
  (l : list A) : list B :=
  match l with
  | [] => []
  | x :: l' => f x index :: forEach_index f (S index) l'
  end.

(** The statements are queued without serialisation, so the driver may
    run them, and call back, in any order.  A schedule is a list of picks:
    each pick selects, modulo their number, one of the statements still
    pending. *)
Fixpoint take_nth {A : Type} (k : nat) (l : list A) {struct l}
  : option (A * list A) :=
  match l with
  | [] => None
  | x :: l' =>
      match k with
      | O => Some (x, l')
      | S k' =>
          match take_nth k' l' with
          | Some (y, r) => Some (y, x :: r)
          | None => None
          end
      end
  end.

Fixpoint completion_order {A : Type} (fuel : nat) (picks : list nat)
  (pending : list A) : list A :=
  match fuel with
  | O => []
  | S fuel' =>
      match take_nth (Nat.modulo (hd 0%nat picks) (List.length pending))
                     pending with
      | Some (x, rest) => x :: completion_order fuel' (tl picks) rest
      | None => []
      end
  end.

(** The variables the question callbacks share, and the replies written to
    [res] so far. *)
Record progress : Type := {
  questionsAdded : nat;
  hasError : bool;
  sent : list response
}.

Definition no_progress : progress :=
  {| questionsAdded := 0; hasError := false; sent := [] |}.

(** The callback given to [db.addQuestion]. *)
Definition question_added (total : nat) (quizId : Z) (err : bool)
  (st : progress) : progress :=
  let hasError' := if err then true else hasError st in
  let added := S (questionsAdded st) in
  {| questionsAdded := added;
     hasError := hasError';
     sent :=
       if Nat.eqb added total
       then sent st ++
            [if hasError'
             then reply 500 (Error "Some questions failed to save")
             else reply 201 (QuizCreated "Quiz created successfully" quizId)]
       else sent st |}.

(** One statement completes: the insert runs and its callback fires. *)
Definition question_settles (total : nat) (quizId : Z) (st : progress)
  (q : questionData) : M progress :=
  r <- addQuestion q ;;
  ret (question_added total quizId (is_err r) st).

(** The statements complete one after the other in the given order. *)
Definition settle (total : nat) (quizId : Z) (order : list questionData)
  : M progress :=
  foldM (question_settles total quizId) no_progress order.

Definition issued (quizId : Z) (questions : list question)
  : list questionData :=
  forEach_index (question_data quizId) 0 questions.

(** The order in which the pending statements complete under a schedule. *)
Definition completions {A : Type} (picks : list nat) (pending : list A)
  : list A :=
  completion_order (List.length pending) picks pending.

Definition add_questions (picks : list nat) (quizId : Z)
  (questions : list question) : M progress :=
  settle (List.length questions) quizId
         (completions picks (issued quizId questions)).

(** The value is the list of replies written to [res]. *)
Definition post_quizzes (picks : list nat) (a : authorization)
  (body : quiz_body) : M (list response) :=
  match authenticateToken a with
  | inl r => ret [r]
  | inr user =>
      match b_title body with
      | JStr t =>
          if (t =? "")%string || (trim t =? "")%string
          then ret [reply 400 (Error "Quiz title is required")]
          else
            match b_questions body with
            | None | Some [] =>
                ret [reply 400 (Error "At least one question is required")]
            | Some questions =>
                match (if truthy (b_description body)
                       then match b_description body with
                            | JStr d => Some (JStr (trim d))
                            | _ => None
                            end
                       else Some (JStr "")) with
                | None => ret [uncaught]
                | Some description =>
                    created <-
                      createQuiz
                        {| title := JStr (trim t);
                           description := description;
                           time_limit := js_or (b_timeLimit body) (JNum 10);
                           user_id := JNum (userId user) |} ;;
                    match created with
                    | DbErr =>
                        ret [reply 500 (Error "Failed to create quiz")]
                    | DbOk quizId =>
                        st <- add_questions picks quizId questions ;;
                        ret (sent st)
                    end
                end
            end
      | title =>
          if truthy title then ret [uncaught]
          else ret [reply 400 (Error "Quiz title is required")]
      end
  end.

(** *** GET and DELETE /api/quizzes/:id *)

(** [parseInt(req.params.id)]: an integer, or NaN. *)
Definition parseInt (parsed : option Z) : jsval :=
  match parsed with
  | Some n => JNum n
  | None => JNaN
  end.

Definition get_quiz (a : authorization) (id : option Z) : M response :=
  match authenticateToken a with
  | inl r => ret r
  | inr _ =>
      let quizId := parseInt id in
      found <- getQuizById quizId ;;
      match found with
      | DbErr => ret (reply 500 (Error "Failed to fetch quiz"))
      | DbOk None => ret (reply 404 (Error "Quiz not found"))
      | DbOk (Some quiz) => ret (reply 200 (Quiz quiz))
      end
  end.

Definition delete_quiz (a : authorization) (id : option Z) : M response :=
  match authenticateToken a with
  | inl r => ret r
  | inr user =>
      let quizId := parseInt id in
      deleted <- deleteQuiz quizId (JNum (userId user)) ;;
      match deleted with
      | DbErr => ret (reply 500 (Error "Failed to delete quiz"))
      | DbOk changes =>
          if changes =? 0
          then ret (reply 404 (Error "Quiz not found or access denied"))
          else ret (reply 200 (Message "Quiz deleted successfully"))
      end
  end.

(** *** POST /api/quiz-results *)

Record result_body : Type := {
  b_quizId : jsval;
  b_score : jsval;
  b_totalQuestions : jsval;
  b_timeTaken : jsval;
  b_answers : option string
}.

Definition is_undefined (v : jsval) : bool :=
  match v with JUndefined => true | _ => false end.

Definition post_quiz_results (a : authorization) (body : result_body)
  : M response :=
  match authenticateToken a with
  | inl r => ret r
  | inr user =>
      if (negb (truthy (b_quizId body)) || is_undefined (b_score body)
          || negb (truthy (b_totalQuestions body))
          || negb (truthy (b_timeTaken body)))%bool
      then ret (reply 400 (Error "Missing required fields"))
      else
        saved <-
          saveResult
            {| r_quiz_id := b_quizId body;
               r_user_id := JNum (userId user);
               r_score := b_score body;
               r_total_questions := b_totalQuestions body;
               r_time_taken := b_timeTaken body;
               r_answers := b_answers body |} ;;
        match saved with
        | DbErr => ret (reply 500 (Error "Failed to save results"))
        | DbOk resultId =>
            ret (reply 200 (ResultSaved "Results saved successfully" resultId))
        end
  end.

(** *** GET /api/my-quizzes and GET /api/my-results *)

(** What a listing handler writes: a failure reply, or 200 with the rows
    as a JSON array. *)
Inductive listing (A : Type) : Type :=
| Refused (r : response)
| Rows (rows : list A).
Arguments Refused {A} r.
Arguments Rows {A} rows.

Definition get_my_quizzes (created_at : Z -> sqlval) (a : authorization)
  : M (listing quiz_row) :=
  match authenticateToken a with
  | inl r => ret (Refused r)
  | inr user =>
      found <- getQuizzesByUser created_at (JNum (userId user)) ;;
      match found with
      | DbErr => ret (Refused (reply 500 (Error "Failed to fetch quizzes")))
      | DbOk quizzes => ret (Rows quizzes)
      end
  end.

Definition get_my_results (completed_at : Z -> sqlval) (a : authorization)
  : M (listing titled_result) :=
  match authenticateToken a with
  | inl r => ret (Refused r)
  | inr user =>
      found <- getResultsByUser completed_at (JNum (userId user)) ;;
      match found with
      | DbErr => ret (Refused (reply 500 (Error "Failed to fetch results")))
      | DbOk results => ret (Rows results)
      end
  end.

End Server.

(** * Vocabulary of the statements *)

Import Database Server.

(** The row written for an accepted result. *)
Definition result_row_of (s : store) (user : token) (body : result_body)
  : result_row :=
  {| quiz_results_id := seq_quiz_results s + 1;
     quiz_results_quiz_id := bind_param (b_quizId body);
     quiz_results_user_id := SInt (userId user);
     quiz_results_score := bind_param (b_score body);
     quiz_results_total_questions := bind_param (b_totalQuestions body);
     quiz_results_time_taken := bind_param (b_timeTaken body);
     quiz_results_answers := bind_param (JSON_stringify (b_answers body)) |}.

Definition options_of (q : question) : list jsval :=
  match q_options q with Some o => o | None => [] end.

(** A description the handler can trim: a string, or a falsy value. *)
Definition trimmable (v : jsval) : Prop :=
  truthy v = false \/ exists d, v = JStr d.

Definition trimmed (v : jsval) : sqlval :=
  if truthy v
  then match v with JStr d => SText (trim d) | _ => SText "" end
  else SText "".

(** The row written for an accepted quiz. *)
Definition quiz_row_of (s : store) (user : token) (body : quiz_body)
  (t : string) : quiz_row :=
  {| quizzes_id := seq_quizzes s + 1;
     quizzes_title := SText (trim t);
     quizzes_description := trimmed (b_description body);
     quizzes_time_limit := bind_param (js_or (b_timeLimit body) (JNum 10));
     quizzes_user_id := SInt (userId user) |}.

Definition email_taken (s : store) (email : jsval) : bool :=
  existsb (fun r => sql_eq (users_email r) (bind_param email)) (users s).

Definition username_taken (s : store) (username : jsval) : bool :=
  existsb (fun r => sql_eq (users_username r) (bind_param username))
          (users s).

(** The fields of a Register body pass the handler's two checks. *)
Definition well_formed_registration (body : register_body) : Prop :=
  truthy (reg_username body) = true
  /\ truthy (reg_email body) = true
  /\ truthy (reg_password body) = true
  /\ shorter_than_6 (reg_password body) = false.

(** Some quiz row carries the requested id. *)
Definition quiz_exists (s : store) (id : option Z) : Prop :=
  exists r, In r (quizzes s) /\ id = Some (quizzes_id r).

Definition has_questions (s : store) (id : option Z) : Prop :=
  exists r, In r (questions s)
            /\ sql_eq (questions_quiz_id r) (bind_param (parseInt id)) = true.

(** The caller owns no quiz row with this id. *)
Definition not_owner (s : store) (user : token) (id : option Z) : Prop :=
  forall r, In r (quizzes s) -> id = Some (quizzes_id r) ->
            sql_eq (quizzes_user_id r) (SInt (userId user)) = false.

Definition failed_reply : response :=
  reply 500 (Error "Some questions failed to save").

Definition created_reply (quizId : Z) : response :=
  reply 201 (QuizCreated "Quiz created successfully" quizId).


(** The row an accepted question INSERT writes under a given id. *)
Definition stored_row (id : Z) (q : questionData) : question_row :=
  {| questions_id := id;
     questions_quiz_id := bind_param (quiz_id q);
     questions_question_text := bind_param (question_text q);
     questions_option_a := bind_param (option_a q);
     questions_option_b := bind_param (option_b q);
     questions_option_c := bind_param (option_c q);
     questions_option_d := bind_param (option_d q);
     questions_correct_answer := bind_param (correct_answer q);
     questions_question_order := bind_param (question_order q) |}.

Fixpoint stored_rows (last : Z) (l : list questionData)
  : list question_row :=
  match l with
  | [] => []
  | q :: l' => stored_row (last + 1) q :: stored_rows (last + 1) l'
  end.

(** The statement satisfies the NOT NULL constraints of [questions]. *)
Definition insertable (q : questionData) : bool :=
  negb (is_null (bind_param (quiz_id q))
        || is_null (bind_param (question_text q))
        || is_null (bind_param (option_a q))
        || is_null (bind_param (option_b q))
        || is_null (bind_param (correct_answer q))
        || is_null (bind_param (question_order q))).

Definition nonempty_string (v : jsval) : bool :=
  match v with
  | JStr s => negb (s =? "")%string
  | _ => false
  end.

(** A question as the data model describes it: a text, two to four
    non-empty option strings, and the index of one of them. *)
Definition well_formed (q : question) : bool :=
  match q_text q, q_options q, q_correct q with
  | JStr _, Some opts, JNum c =>
      (2 <=? List.length opts)%nat && (List.length opts <=? 4)%nat
      && forallb nonempty_string opts
      && (0 <=? c) && (c <? Z.of_nat (List.length opts))
  | _, _, _ => false
  end.

(** Ids handed out so far bound the ids in use: every quiz row and every
    quiz reference of a question row is at most the quiz counter. *)
Definition consistent (s : store) : bool :=
  forallb (fun r => quizzes_id r <=? seq_quizzes s) (quizzes s)
  && forallb (fun r => match questions_quiz_id r with
                       | SInt k => k <=? seq_quizzes s
                       | _ => false
                       end) (questions s).

Definition submitted (q : question) : jsval * list jsval * jsval :=
  (q_text q, options_of q, q_correct q).

Definition returned (v : question_view) : jsval * list jsval * jsval :=
  (text v, options v, correct v).

Definition valid_index (v : question_view) : Prop :=
  exists c, correct v = JNum c
            /\ 0 <= c < Z.of_nat (List.length (options v)).

(** The quiz and question tables and the quiz counter are untouched. *)
Definition same_quizzes (w w' : world) : Prop :=
  quizzes (db w') = quizzes (db w)
  /\ questions (db w') = questions (db w)
  /\ seq_quizzes (db w') = seq_quizzes (db w).

(** ** Further vocabulary *)

(** The row written for an accepted registration. *)
Definition user_row_of (B : Bcrypt) (s : store) (body : register_body)
  (p : string) : user_row :=
  {| users_id := seq_users s + 1;
     users_username := bind_param (reg_username body);
     users_email := bind_param (reg_email body);
     users_password := SText (bcrypt_hash p) |}.

(** The Login body carrying the credentials of a Register body. *)
Definition login_of (body : register_body) : login_body :=
  {| login_email := reg_email body; login_password := reg_password body |}.

(** The ids of a table, in row order, rise strictly from above [lo] to at
    most [hi]. *)
Fixpoint ascending (lo hi : Z) (ids : list Z) : bool :=
  match ids with
  | [] => lo <=? hi
  | x :: r => (lo <? x) && ascending x hi r
  end.

(** In every table the row ids are positive, strictly rising and at most
    the table's AUTOINCREMENT counter; in particular they are unique. *)
Definition keyed (s : store) : bool :=
  ascending 0 (seq_users s) (map users_id (users s))
  && ascending 0 (seq_quizzes s) (map quizzes_id (quizzes s))
  && ascending 0 (seq_questions s) (map questions_id (questions s))
  && ascending 0 (seq_quiz_results s)
       (map quiz_results_id (quiz_results s)).

(** The existing row [r] blocks the insertion of [row]: same username or
    same email. *)
Definition clashes (row r : user_row) : bool :=
  (sql_eq (users_username r) (users_username row)
   || sql_eq (users_email r) (users_email row))%bool.

(** No user row shares its username or its email with a later one. *)
Fixpoint distinct_users (l : list user_row) : bool :=
  match l with
  | [] => true
  | r :: l' => negb (existsb (fun r' => clashes r' r) l')
               && distinct_users l'
  end.

(** One write to the store: an insert under the next id of its table (a
    user only if no stored user clashes with it), or the removal of some
    question rows or some quiz rows. *)
Inductive write : store -> store -> Prop :=
| write_user (s : store) (r : user_row) :
    users_id r = seq_users s + 1 ->
    existsb (clashes r) (users s) = false ->
    write s (insert_user r s)
| write_quiz (s : store) (r : quiz_row) :
    quizzes_id r = seq_quizzes s + 1 ->
    write s (insert_quiz r s)
| write_question (s : store) (r : question_row) :
    questions_id r = seq_questions s + 1 ->
    write s (insert_question r s)
| write_result (s : store) (r : result_row) :
    quiz_results_id r = seq_quiz_results s + 1 ->
    write s (insert_result r s)
| write_drop_questions (s : store) (f : question_row -> bool) :
    write s (set_questions (filter f (questions s)) s)
| write_drop_quizzes (s : store) (f : quiz_row -> bool) :
    write s (set_quizzes (filter f (quizzes s)) s).

Inductive writes : store -> store -> Prop :=
| writes_none (s : store) : writes s s
| writes_more (s1 s2 s3 : store) :
    writes s1 s2 -> write s2 s3 -> writes s1 s3.

(** The routes of the server. *)
Inductive request : Type :=
| Register (body : register_body)
| Login (body : login_body)
| CreateQuiz (picks : list nat) (a : authorization) (body : quiz_body)
| GetQuiz (a : authorization) (id : option Z)
| DeleteQuiz (a : authorization) (id : option Z)
| SaveResult (a : authorization) (body : result_body)
| MyQuizzes (created_at : Z -> sqlval) (a : authorization)
| MyResults (completed_at : Z -> sqlval) (a : authorization).

(** The world a request leaves behind. *)
Definition serve (B : Bcrypt) (r : request) (w : world) : world :=
  match r with
  | Register body => snd (post_register body w)
  | Login body => snd (post_login body w)
  | CreateQuiz picks a body => snd (post_quizzes picks a body w)
  | GetQuiz a id => snd (get_quiz a id w)
  | DeleteQuiz a id => snd (delete_quiz a id w)
  | SaveResult a body => snd (post_quiz_results a body w)
  | MyQuizzes created_at a => snd (get_my_quizzes created_at a w)
  | MyResults completed_at a => snd (get_my_results completed_at a w)
  end.

(** Requests served one after the other. *)
Definition serve_all (B : Bcrypt) (rs : list request) (w : world) : world :=
  fold_left (fun w r => serve B r w) rs w.

(** A computation changes the store by writes only; a computation
    leaves the store as it is. *)
Definition Writes {A : Type} (m : M A) : Prop :=
  forall w, writes (db w) (db (snd (m w))).

Definition Reads {A : Type} (m : M A) : Prop :=
  forall w, db (snd (m w)) = db w.

(** ** Sample requests and stores *)

Definition sample_quiz_body (limit : jsval) : quiz_body :=
  {| b_title := JStr "  Capitals ";
     b_description := JUndefined;
     b_timeLimit := limit;
     b_questions :=
       Some [ {| q_text := JStr "Capital of France?";
                 q_options := Some [JStr "Paris"; JStr "Rome"; JStr "Oslo"];
                 q_correct := JNum 0 |};
              {| q_text := JStr "Capital of Italy?";
                 q_options := Some [JStr "Paris"; JStr "Rome"];
                 q_correct := JNum 1 |} ] |}.

Definition ann : token := {| userId := 1; token_username := JStr "ann" |}.
Definition bob : token := {| userId := 2; token_username := JStr "bob" |}.

Definition fresh : world := {| db := empty_store; faults := [] |}.

Definition toy_bcrypt : Bcrypt :=
  {| bcrypt_hash := fun p => ("$2a$10$" ++ p)%string;
     bcrypt_compare := fun p h => (h =? "$2a$10$" ++ p)%string |}.

Definition one_user : world :=
  {| db := insert_user {| users_id := 1;
                          users_username := SText "alice";
                          users_email := SText "alice@example.org";
                          users_password := SText "$2a$10$wonderland" |}
                       empty_store;
     faults := [] |}.

Definition one_empty_quiz : world :=
  {| db := insert_quiz {| quizzes_id := 1;
                          quizzes_title := SText "Capitals";
                          quizzes_description := SText "";
                          quizzes_time_limit := SInt 10;
                          quizzes_user_id := SInt 1 |}
                       empty_store;
     faults := [] |}.

(** Ann's quiz, as Create-Quiz leaves it in an empty store. *)
Definition ann_quiz : world :=
  snd (post_quizzes [] (Bearer ann) (sample_quiz_body (JNum 5)) fresh).

(** A question without text: its INSERT violates NOT NULL. *)
Definition textless_body : quiz_body :=
  {| b_title := JStr "Capitals";
     b_description := JUndefined;
     b_timeLimit := JUndefined;
     b_questions :=
       Some [ {| q_text := JStr "Capital of France?";
                 q_options := Some [JStr "Paris"; JStr "Rome"];
                 q_correct := JNum 0 |};
              {| q_text := JUndefined;
                 q_options := Some [JStr "Paris"; JStr "Rome"];
                 q_correct := JNum 1 |} ] |}.

Definition carol_registration : register_body :=
  {| reg_username := JStr "carol"; reg_email := JStr "c@example.org";
     reg_password := JStr "tea-party" |}.

Definition ann_quiz_row : quiz_row :=
  {| quizzes_id := 1; quizzes_title := SText "Capitals";
     quizzes_description := SText ""; quizzes_time_limit := SInt 5;
     quizzes_user_id := SInt 1 |}.

(** What Get-Quiz answers for Ann's quiz. *)
Definition ann_quiz_view : quiz_view :=
  {| quiz := ann_quiz_row;
     quiz_questions :=
       [ {| id := JNum 1; text := JStr "Capital of France?";
            options := [JStr "Paris"; JStr "Rome"; JStr "Oslo"];
            correct := JNum 0 |};
         {| id := JNum 2; text := JStr "Capital of Italy?";
            options := [JStr "Paris"; JStr "Rome"];
            correct := JNum 1 |} ] |}.

(** A title of white space only: U+00A0 followed by a space. *)
Definition blank_title : string := String "194" (String "160" " ").

(** Ann's quiz after Ann has played it once. *)
Definition ann_played : world :=
  snd (post_quiz_results (Bearer ann)
         {| b_quizId := JNum 1; b_score := JNum 2;
            b_totalQuestions := JNum 2; b_timeTaken := JNum 30;
            b_answers := Some "[0,1]"%string |}
         ann_quiz).

(** The row id standing in for the timestamp: later rows are newer. *)
Definition stamp_of_id (id : Z) : sqlval := SInt id.

Definition busy_day : list request :=
  [ Register carol_registration;
    CreateQuiz [1%nat] (Bearer ann) (sample_quiz_body (JNum 5));
    SaveResult (Bearer bob)
      {| b_quizId := JNum 1; b_score := JNum 0; b_totalQuestions := JNum 2;
         b_timeTaken := JNum 12; b_answers := Some "[1,0]"%string |};
    CreateQuiz [] (Bearer bob) textless_body;
    DeleteQuiz (Bearer bob) (Some 1);
    MyResults stamp_of_id (Bearer bob) ].

(** * Properties *)

(** ** Running the monad *)

Ltac run :=
  unfold bind, ret, get_store, put_store, statement_error in *; cbn in *.

Lemma trim_empty : trim "" = ""%string.
Proof. reflexivity. Qed.

Example trim_keeps_inner_space : trim "  a b  " = "a b"%string.
Proof. reflexivity. Qed.

Example trim_blank : trim "   " = ""%string.
Proof. reflexivity. Qed.

(** No-break spaces (U+00A0) around a word, and a lone U+3000. *)
Example trim_no_break_space :
  trim (String (ascii_of_nat 194) (String (ascii_of_nat 160)
          ("a b" ++ String (ascii_of_nat 194)
                      (String (ascii_of_nat 160) " "))))
  = "a b"%string.
Proof. reflexivity. Qed.

Example trim_ideographic_space :
  trim (String (ascii_of_nat 227) (String (ascii_of_nat 128)
          (String (ascii_of_nat 128) ""))) = ""%string.
Proof. reflexivity. Qed.

(** Three two-byte letters make a password of length 3. *)
Example js_length_counts_code_units :
  js_length (String (ascii_of_nat 195) (String (ascii_of_nat 169)
            (String (ascii_of_nat 195) (String (ascii_of_nat 169)
            (String (ascii_of_nat 195) (String (ascii_of_nat 169) ""))))))
  = 3%nat.
Proof. reflexivity. Qed.

Lemma truthy_js_or (a b : jsval) : truthy a = true -> js_or a b = a.
Proof. intros H; unfold js_or; now rewrite H. Qed.

Lemma falsy_js_or (a b : jsval) : truthy a = false -> js_or a b = b.
Proof. intros H; unfold js_or; now rewrite H. Qed.

Lemma truthy_not_null (v : jsval) :
  truthy v = true -> is_null (bind_param v) = false.
Proof. destruct v; cbn; congruence. Qed.

(** ** Save-Quiz-Result *)

(** C9. A result whose timeTaken or totalQuestions is the number 0 is
    answered 400 "Missing required fields", and neither the store nor the
    driver is touched. *)
Theorem save_result_zero_time_or_total_rejected :
  forall (user : token) (body : result_body) (w : world),
    b_timeTaken body = JNum 0 \/ b_totalQuestions body = JNum 0 ->
    post_quiz_results (Bearer user) body w
    = (reply 400 (Error "Missing required fields"), w).
Proof.
  intros user body w H.
  unfold post_quiz_results; cbn.
  destruct H as [H | H]; rewrite H; cbn;
    rewrite ?orb_true_r; reflexivity.
Qed.

Lemma save_result_zero_time_or_total_rejected_witness :
  post_quiz_results
    (Bearer {| userId := 1; token_username := JStr "ann" |})
    {| b_quizId := JNum 1; b_score := JNum 3; b_totalQuestions := JNum 5;
       b_timeTaken := JNum 0; b_answers := Some "[0,1,2]"%string |}
    {| db := empty_store; faults := [] |}
  = (reply 400 (Error "Missing required fields"),
     {| db := empty_store; faults := [] |}).
Proof.
  apply save_result_zero_time_or_total_rejected.
  left; reflexivity.
Defined.

(** C8, as amended. With quizId, totalQuestions and timeTaken truthy, a
    score of 0, an answers member in the body and no storage error, the
    request passes validation and the reply is 200 with the new row's id;
    exactly one row is appended to quiz_results, under that id, recorded
    for the caller, with score 0 and the serialised answers, and with the
    quizId, totalQuestions and timeTaken that were sent where these are
    integers. *)
Theorem save_result_zero_score_persisted :
  forall (user : token) (body : result_body) (w : world) (answers : string),
    truthy (b_quizId body) = true ->
    b_score body = JNum 0 ->
    truthy (b_totalQuestions body) = true ->
    truthy (b_timeTaken body) = true ->
    b_answers body = Some answers ->
    faults w = [] ->
    exists row,
      post_quiz_results (Bearer user) body w
      = (reply 200 (ResultSaved "Results saved successfully"
                      (seq_quiz_results (db w) + 1)),
         {| db := insert_result row (db w); faults := [] |})
      /\ quiz_results_id row = seq_quiz_results (db w) + 1
      /\ quiz_results_user_id row = SInt (userId user)
      /\ quiz_results_score row = SInt 0
      /\ quiz_results_answers row = SText answers
      /\ (forall n, b_quizId body = JNum n ->
                    quiz_results_quiz_id row = SInt n)
      /\ (forall n, b_totalQuestions body = JNum n ->
                    quiz_results_total_questions row = SInt n)
      /\ (forall n, b_timeTaken body = JNum n ->
                    quiz_results_time_taken row = SInt n).
Proof.
  intros user body [s f] answers Hq Hs Ht Htt Ha Hf; cbn in Hf; subst f.
  exists (result_row_of s user body).
  split; [| unfold result_row_of; cbn; rewrite Hs, Ha; cbn;
            repeat split; intros n ->; reflexivity].
  unfold post_quiz_results, saveResult, result_row_of; run.
  rewrite Hq, Ht, Htt, Hs, Ha; cbn.
  rewrite (truthy_not_null _ Hq), (truthy_not_null _ Ht),
    (truthy_not_null _ Htt); cbn.
  reflexivity.
Qed.

Lemma save_result_zero_score_persisted_witness :
  exists row,
    post_quiz_results
      (Bearer {| userId := 1; token_username := JStr "ann" |})
      {| b_quizId := JNum 1; b_score := JNum 0;
         b_totalQuestions := JNum 5; b_timeTaken := JNum 42;
         b_answers := Some "[1,1,1,1,1]"%string |}
      {| db := empty_store; faults := [] |}
    = (reply 200 (ResultSaved "Results saved successfully" 1),
       {| db := insert_result row empty_store; faults := [] |})
    /\ quiz_results_id row = 1
    /\ quiz_results_user_id row = SInt 1
    /\ quiz_results_score row = SInt 0
    /\ quiz_results_answers row = SText "[1,1,1,1,1]"
    /\ (forall n, JNum 1 = JNum n -> quiz_results_quiz_id row = SInt n)
    /\ (forall n, JNum 5 = JNum n ->
                  quiz_results_total_questions row = SInt n)
    /\ (forall n, JNum 42 = JNum n ->
                  quiz_results_time_taken row = SInt n).
Proof.
  apply (save_result_zero_score_persisted
           {| userId := 1; token_username := JStr "ann" |}
           {| b_quizId := JNum 1; b_score := JNum 0;
              b_totalQuestions := JNum 5; b_timeTaken := JNum 42;
              b_answers := Some "[1,1,1,1,1]"%string |}
           {| db := empty_store; faults := [] |}
           "[1,1,1,1,1]"%string);
    reflexivity.
Defined.

(** C8, as stated, fails: a body with quizId, totalQuestions and timeTaken
    present and score 0 but no answers member passes validation, the
    INSERT then violates NOT NULL on quiz_results.answers, the reply is
    500 and nothing is stored. *)
Lemma save_result_zero_score_without_answers :
  let user := {| userId := 1; token_username := JStr "ann" |} in
  let body := {| b_quizId := JNum 1; b_score := JNum 0;
                 b_totalQuestions := JNum 5; b_timeTaken := JNum 42;
                 b_answers := None |} in
  let w := {| db := empty_store; faults := [] |} in
  post_quiz_results (Bearer user) body w
  = (reply 500 (Error "Failed to save results"), w).
Proof. reflexivity. Qed.

(** ** Question slots *)

Lemma js_index_absent (l : list jsval) (i : nat) :
  (List.length l <= i)%nat -> js_index l i = JUndefined.
Proof. intros H; unfold js_index; now apply nth_overflow. Qed.

Lemma js_or_null_never_empty (v : jsval) :
  bind_param (js_or v JNull) <> SText "".
Proof.
  unfold js_or; destruct v as [| | | b | n | s]; cbn; try discriminate.
  - destruct b; discriminate.
  - destruct (n =? 0); discriminate.
  - destruct (String.eqb_spec s ""); cbn; [discriminate |].
    intros H; injection H; auto.
Qed.

Lemma addQuestion_ok_inv (q : questionData) (w w' : world) :
  addQuestion q w = (DbOk tt, w') ->
  exists row,
    questions (db w') = questions (db w) ++ [row]
    /\ w' = {| db := insert_question row (db w); faults := tl (faults w) |}
    /\ hd false (faults w) = false
    /\ questions_id row = seq_questions (db w) + 1
    /\ questions_quiz_id row = bind_param (quiz_id q)
    /\ questions_question_text row = bind_param (question_text q)
    /\ questions_option_a row = bind_param (option_a q)
    /\ questions_option_b row = bind_param (option_b q)
    /\ questions_option_c row = bind_param (option_c q)
    /\ questions_option_d row = bind_param (option_d q)
    /\ questions_correct_answer row = bind_param (correct_answer q)
    /\ questions_question_order row = bind_param (question_order q).
Proof.
  destruct w as [s f]; unfold addQuestion; run.
  destruct f as [| [|] f]; cbn; try discriminate.
  all: match goal with
       | |- context [if ?c then _ else _] => destruct c
       end; try discriminate.
  all: intros H; injection H as <-; eexists; cbn;
    repeat split; reflexivity.
Qed.

(** C6. When a question written through Create-Quiz has no third (fourth)
    option, the option_c (option_d) column of the stored row is NULL; and
    whatever the options are, neither column ever holds the empty
    string. *)
Theorem absent_option_stored_as_null :
  forall (quizId : Z) (q : question) (index : nat) (w w' : world),
    addQuestion (question_data quizId q index) w = (DbOk tt, w') ->
    exists row,
      questions (db w') = questions (db w) ++ [row]
      /\ ((List.length (options_of q) <= 2)%nat ->
          questions_option_c row = SNull)
      /\ ((List.length (options_of q) <= 3)%nat ->
          questions_option_d row = SNull)
      /\ questions_option_c row <> SText ""
      /\ questions_option_d row <> SText "".
Proof.
  intros quizId q index w w' H.
  destruct (addQuestion_ok_inv _ _ _ H)
    as (row & Hq & _ & _ & _ & _ & _ & _ & _ & Hc & Hd & _).
  exists row; split; [exact Hq |].
  rewrite Hc, Hd; cbn; fold (options_of q).
  repeat split.
  - intros Hl; now rewrite js_index_absent.
  - intros Hl; now rewrite js_index_absent.
  - apply js_or_null_never_empty.
  - apply js_or_null_never_empty.
Qed.

Lemma absent_option_stored_as_null_witness :
  exists row,
    questions (db {| db := insert_question
                             {| questions_id := 1;
                                questions_quiz_id := SInt 7;
                                questions_question_text := SText "Q1";
                                questions_option_a := SText "A";
                                questions_option_b := SText "B";
                                questions_option_c := SNull;
                                questions_option_d := SNull;
                                questions_correct_answer := SInt 0;
                                questions_question_order := SInt 0 |}
                             empty_store;
                     faults := [] |})
    = questions (db {| db := empty_store; faults := [] |}) ++ [row]
    /\ ((List.length
           (options_of {| q_text := JStr "Q1";
                          q_options := Some [JStr "A"; JStr "B"];
                          q_correct := JNum 0 |}) <= 2)%nat ->
        questions_option_c row = SNull)
    /\ ((List.length
           (options_of {| q_text := JStr "Q1";
                          q_options := Some [JStr "A"; JStr "B"];
                          q_correct := JNum 0 |}) <= 3)%nat ->
        questions_option_d row = SNull)
    /\ questions_option_c row <> SText ""
    /\ questions_option_d row <> SText "".
Proof.
  apply (absent_option_stored_as_null 7
           {| q_text := JStr "Q1"; q_options := Some [JStr "A"; JStr "B"];
              q_correct := JNum 0 |}
           0%nat {| db := empty_store; faults := [] |}).
  reflexivity.
Defined.

(** ** Create-Quiz: the quiz row *)

Lemma foldM_preserves {A B : Type} (P : world -> Prop) (f : A -> B -> M A) :
  (forall a x w, P w -> P (snd (f a x w))) ->
  forall l a w, P w -> P (snd (foldM f a l w)).
Proof.
  intros Hf l; induction l as [| x l IH]; intros a w Hw; cbn; [exact Hw |].
  unfold bind. specialize (Hf a x w Hw).
  destruct (f a x w) as [a' w1]; cbn in *. now apply IH.
Qed.

Lemma addQuestion_quizzes (q : questionData) (w : world) :
  quizzes (db (snd (addQuestion q w))) = quizzes (db w)
  /\ seq_quizzes (db (snd (addQuestion q w))) = seq_quizzes (db w).
Proof.
  destruct w as [s f]; unfold addQuestion; run.
  destruct f as [| [|] f]; cbn; auto;
    match goal with
    | |- context [if ?c then _ else _] => destruct c
    end; cbn; auto.
Qed.

Lemma settle_quizzes (total : nat) (quizId : Z) (order : list questionData)
  (w : world) :
  quizzes (db (snd (settle total quizId order w))) = quizzes (db w)
  /\ seq_quizzes (db (snd (settle total quizId order w))) = seq_quizzes (db w).
Proof.
  unfold settle.
  apply (foldM_preserves
           (fun w' => quizzes (db w') = quizzes (db w)
                      /\ seq_quizzes (db w') = seq_quizzes (db w)));
    [| split; reflexivity].
  intros a x w1 [H1 H2]. unfold question_settles, bind, ret.
  pose proof (addQuestion_quizzes x w1) as [H3 H4].
  destruct (addQuestion x w1) as [r w2]; cbn in *.
  split; congruence.
Qed.

(** A request that passes validation, when the driver takes the quiz
    INSERT, stores the quiz row and goes on to the question writes. *)
Lemma post_quizzes_accepted (picks : list nat) (user : token)
  (body : quiz_body) (w : world) (t : string) (q : question)
  (qs : list question) :
  b_title body = JStr t ->
  trim t <> ""%string ->
  trimmable (b_description body) ->
  b_questions body = Some (q :: qs) ->
  hd false (faults w) = false ->
  post_quizzes picks (Bearer user) body w
  = (let (st, w') :=
       add_questions picks (seq_quizzes (db w) + 1) (q :: qs)
         {| db := insert_quiz (quiz_row_of (db w) user body t) (db w);
            faults := tl (faults w) |} in
     (sent st, w')).
Proof.
  intros Ht Hne Hd Hq Hf.
  unfold post_quizzes; cbn. rewrite Ht, Hq.
  assert (Hte : (t =? "")%string = false).
  { destruct (String.eqb_spec t ""); [subst; now rewrite trim_empty in Hne |];
      reflexivity. }
  assert (Htr : (trim t =? "")%string = false).
  { now destruct (String.eqb_spec (trim t) ""). }
  rewrite Hte, Htr; cbn.
  assert (Hdesc :
    (if truthy (b_description body)
     then match b_description body with
          | JStr d => Some (JStr (trim d))
          | _ => None
          end
     else Some (JStr ""))
    = Some (column_value (trimmed (b_description body)))).
  { unfold trimmed. destruct Hd as [Hd | [d Hd]]; rewrite Hd; cbn.
    - reflexivity.
    - destruct (negb (d =? "")%string); reflexivity. }
  rewrite Hdesc.
  destruct w as [s f]; unfold createQuiz; run.
  destruct f as [| [|] f]; cbn in *; try discriminate.
  - unfold quiz_row_of.
    replace (bind_param (column_value (trimmed (b_description body))))
      with (trimmed (b_description body))
      by (unfold trimmed; destruct (truthy (b_description body));
          [destruct (b_description body) |]; reflexivity).
    reflexivity.
  - unfold quiz_row_of.
    replace (bind_param (column_value (trimmed (b_description body))))
      with (trimmed (b_description body))
      by (unfold trimmed; destruct (truthy (b_description body));
          [destruct (b_description body) |]; reflexivity).
    reflexivity.
Qed.

(** C10. A valid Create-Quiz request whose timeLimit is the number 0
    stores its quiz row with time_limit 10, whatever happens to the
    question writes afterwards. *)
Theorem zero_time_limit_stored_as_default :
  forall (picks : list nat) (user : token) (body : quiz_body) (w : world)
         (t : string) (q : question) (qs : list question),
    b_title body = JStr t ->
    trim t <> ""%string ->
    trimmable (b_description body) ->
    b_questions body = Some (q :: qs) ->
    hd false (faults w) = false ->
    b_timeLimit body = JNum 0 ->
    exists row,
      quizzes (db (snd (post_quizzes picks (Bearer user) body w)))
      = quizzes (db w) ++ [row]
      /\ quizzes_id row = seq_quizzes (db w) + 1
      /\ quizzes_title row = SText (trim t)
      /\ quizzes_user_id row = SInt (userId user)
      /\ quizzes_time_limit row = SInt 10.
Proof.
  intros picks user body w t q qs Ht Hne Hd Hq Hf Hl.
  rewrite (post_quizzes_accepted picks user body w t q qs Ht Hne Hd Hq Hf).
  exists (quiz_row_of (db w) user body t).
  unfold add_questions.
  match goal with
  | |- context [settle ?n ?i ?o ?w0] =>
      pose proof (settle_quizzes n i o w0) as [H1 _];
      destruct (settle n i o w0) as [st w']
  end.
  cbn in *. rewrite H1.
  repeat split. now rewrite Hl.
Qed.

Lemma zero_time_limit_stored_as_default_witness :
  exists row,
    quizzes (db (snd (post_quizzes [1%nat] (Bearer ann)
                        (sample_quiz_body (JNum 0)) fresh)))
    = quizzes (db fresh) ++ [row]
    /\ quizzes_id row = seq_quizzes (db fresh) + 1
    /\ quizzes_title row = SText (trim "  Capitals ")
    /\ quizzes_user_id row = SInt (userId ann)
    /\ quizzes_time_limit row = SInt 10.
Proof.
  apply (zero_time_limit_stored_as_default [1%nat] ann
           (sample_quiz_body (JNum 0)) fresh "  Capitals "
           {| q_text := JStr "Capital of France?";
              q_options := Some [JStr "Paris"; JStr "Rome"; JStr "Oslo"];
              q_correct := JNum 0 |}
           [ {| q_text := JStr "Capital of Italy?";
                q_options := Some [JStr "Paris"; JStr "Rome"];
                q_correct := JNum 1 |} ]).
  - reflexivity.
  - vm_compute; discriminate.
  - left; reflexivity.
  - reflexivity.
  - reflexivity.
  - reflexivity.
Defined.

(** ** Register and Login *)

Lemma find_none_existsb {A : Type} (f : A -> bool) (l : list A) :
  existsb f l = false -> find f l = None.
Proof.
  induction l as [| x l IH]; cbn; [reflexivity |].
  destruct (f x); cbn; [discriminate | exact IH].
Qed.

Lemma find_some_existsb {A : Type} (f : A -> bool) (l : list A) :
  existsb f l = true -> exists x, find f l = Some x.
Proof.
  induction l as [| x l IH]; cbn; [discriminate |].
  destruct (f x); cbn; [eauto | exact IH].
Qed.

Lemma existsb_orb_l {A : Type} (f g : A -> bool) (l : list A) :
  existsb f l = true -> existsb (fun x => f x || g x)%bool l = true.
Proof.
  induction l as [| x l IH]; cbn; [discriminate |].
  destruct (f x); cbn; [reflexivity |].
  intros H; rewrite (IH H); apply orb_true_r.
Qed.

(** What Register does with a duplicate, for a request whose username,
    email and password are strings that pass validation and that meets no
    storage error: a stored email is answered 400 "User already exists";
    a new email with a stored username runs into the UNIQUE constraint of
    the INSERT and is answered 500 "Error creating user". Either way no
    user is created. *)
Lemma register_duplicate_rejected (B : Bcrypt) (body : register_body)
  (w : world) (u e p : string) :
  reg_username body = JStr u ->
  reg_email body = JStr e ->
  reg_password body = JStr p ->
  well_formed_registration body ->
  faults w = [] ->
  (email_taken (db w) (reg_email body) = true ->
   post_register body w = (reply 400 (Error "User already exists"), w))
  /\ (email_taken (db w) (reg_email body) = false ->
      username_taken (db w) (reg_username body) = true ->
      post_register body w = (reply 500 (Error "Error creating user"), w)).
Proof.
  destruct w as [s f].
  intros _ _ Hpw (Hu & He & Hp & Hl) Hf; cbn in Hf; subst f.
  unfold post_register, getUserByEmail, email_taken, username_taken.
  rewrite Hu, He, Hp, Hl; run.
  split.
  - intros Ht. destruct (find_some_existsb _ _ Ht) as [x ->]. reflexivity.
  - intros Hn Ht. rewrite (find_none_existsb _ _ Hn), Hpw.
    unfold createUser; run.
    rewrite (truthy_not_null _ Hu), (truthy_not_null _ He); cbn.
    rewrite (existsb_orb_l _ _ _ Ht). reflexivity.
Qed.

(** C4 does not hold of the code. With alice registered, a registration
    under her email and a new username is answered 400 "User already
    exists"; a registration under her username and a new email is
    answered 500 "Error creating user", not 400: the handler looks up the
    email only and leaves the username to the UNIQUE constraint. Neither
    request creates a user. *)
Theorem register_duplicate_username_is_500 :
  let same_email := {| reg_username := JStr "alicia";
                       reg_email := JStr "alice@example.org";
                       reg_password := JStr "rabbit-hole" |} in
  let same_username := {| reg_username := JStr "alice";
                          reg_email := JStr "other@example.org";
                          reg_password := JStr "rabbit-hole" |} in
  email_taken (db one_user) (reg_email same_email) = true
  /\ @post_register toy_bcrypt same_email one_user
     = (reply 400 (Error "User already exists"), one_user)
  /\ username_taken (db one_user) (reg_username same_username) = true
  /\ @post_register toy_bcrypt same_username one_user
     = (reply 500 (Error "Error creating user"), one_user)
  /\ status (fst (@post_register toy_bcrypt same_username one_user)) <> 400.
Proof. repeat split; cbn; discriminate. Qed.

(** C5, as amended. Against the same store and without storage error, a
    Login naming a string email that no user has, with any password, and a
    Login naming a registered string email with a string password that
    bcrypt does not accept for the stored hash, get the same reply, 400
    "Invalid credentials", and both leave the store as it was. *)
Theorem login_failures_indistinguishable :
  forall (B : Bcrypt) (unknown wrong : login_body) (w : world)
         (user : user_row) (e1 e2 p h : string),
    login_email unknown = JStr e1 ->
    login_email wrong = JStr e2 ->
    login_password wrong = JStr p ->
    truthy (login_email unknown) = true ->
    truthy (login_password unknown) = true ->
    truthy (login_email wrong) = true ->
    truthy (login_password wrong) = true ->
    faults w = [] ->
    email_taken (db w) (login_email unknown) = false ->
    find (fun r => sql_eq (users_email r) (bind_param (login_email wrong)))
         (users (db w)) = Some user ->
    users_password user = SText h ->
    bcrypt_compare p h = false ->
    post_login unknown w = (reply 400 (Error "Invalid credentials"), w)
    /\ post_login wrong w = post_login unknown w.
Proof.
  intros B unknown wrong [s f] user e1 e2 p h _ _ Hpw He1 Hp1 He2 Hp2 Hf Hn
    Hs Hh Hc.
  cbn in Hf; subst f.
  assert (H1 : post_login unknown {| db := s; faults := [] |}
               = (reply 400 (Error "Invalid credentials"),
                  {| db := s; faults := [] |})).
  { unfold post_login, getUserByEmail. rewrite He1, Hp1; run.
    unfold email_taken in Hn; cbn in Hn.
    now rewrite (find_none_existsb _ _ Hn). }
  split; [exact H1 |]. rewrite H1.
  unfold post_login, getUserByEmail. rewrite He2, Hp2; run.
  rewrite Hs, Hpw, Hh; cbn. rewrite Hc; reflexivity.
Qed.

Lemma login_failures_indistinguishable_witness :
  @post_login toy_bcrypt
    {| login_email := JStr "nobody@example.org";
       login_password := JStr "whatever" |} one_user
  = (reply 400 (Error "Invalid credentials"), one_user)
  /\ @post_login toy_bcrypt
       {| login_email := JStr "alice@example.org";
          login_password := JStr "looking-glass" |} one_user
     = @post_login toy_bcrypt
         {| login_email := JStr "nobody@example.org";
            login_password := JStr "whatever" |} one_user.
Proof.
  apply (login_failures_indistinguishable toy_bcrypt
           {| login_email := JStr "nobody@example.org";
              login_password := JStr "whatever" |}
           {| login_email := JStr "alice@example.org";
              login_password := JStr "looking-glass" |}
           one_user
           {| users_id := 1;
              users_username := SText "alice";
              users_email := SText "alice@example.org";
              users_password := SText "$2a$10$wonderland" |}
           "nobody@example.org" "alice@example.org"
           "looking-glass" "$2a$10$wonderland");
    reflexivity.
Defined.

(** C5, as stated, fails when the password is not a string: with the
    password 7, which verifies against no hash, the unknown email is
    answered 400 "Invalid credentials" but alice's registered email is
    answered 500 "Server error", because bcrypt refuses to compare a
    number; the two replies tell the cases apart. *)
Lemma login_numeric_password_tells_registered :
  let unknown := {| login_email := JStr "nobody@example.org";
                    login_password := JNum 7 |} in
  let wrong := {| login_email := JStr "alice@example.org";
                  login_password := JNum 7 |} in
  email_taken (db one_user) (login_email unknown) = false
  /\ email_taken (db one_user) (login_email wrong) = true
  /\ @post_login toy_bcrypt unknown one_user
     = (reply 400 (Error "Invalid credentials"), one_user)
  /\ @post_login toy_bcrypt wrong one_user
     = (reply 500 (Error "Server error"), one_user)
  /\ @post_login toy_bcrypt wrong one_user
     <> @post_login toy_bcrypt unknown one_user.
Proof. repeat split; cbn; discriminate. Qed.

(** ** Get-Quiz *)

Lemma find_quiz_none (s : store) (id : option Z) :
  find (fun r => sql_eq (SInt (quizzes_id r)) (bind_param (parseInt id)))
       (quizzes s) = None
  <-> ~ quiz_exists s id.
Proof.
  split.
  - intros H [r [Hin ->]].
    apply (find_none _ _ H) in Hin; cbn in Hin.
    now rewrite Z.eqb_refl in Hin.
  - intros H.
    destruct (find _ _) as [r |] eqn:E; [| reflexivity].
    exfalso; apply H. apply find_some in E as [Hin Heq].
    exists r; split; [exact Hin |].
    destruct id as [n |]; cbn in Heq; [| discriminate].
    apply Z.eqb_eq in Heq; now subst.
Qed.

Lemma filter_nil_iff {A : Type} (f : A -> bool) (l : list A) :
  (forall x, In x l -> f x = false) -> filter f l = [].
Proof.
  induction l as [| x l IH]; cbn; intros H; [reflexivity |].
  rewrite (H x (or_introl eq_refl)). apply IH; auto.
Qed.

(** C7. Without storage errors, [getQuizById] answers "no quiz" exactly
    when no quiz row has the requested id; a quiz without question rows
    comes back with an empty question list; and the handler answers
    "no quiz" with 404. *)
Theorem get_quiz_absent_iff_no_row :
  forall (id : option Z) (w : world),
    faults w = [] ->
    (fst (getQuizById (parseInt id) w) = DbOk None
     <-> ~ quiz_exists (db w) id)
    /\ (quiz_exists (db w) id -> ~ has_questions (db w) id ->
        exists row,
          In row (quizzes (db w)) /\ id = Some (quizzes_id row)
          /\ fst (getQuizById (parseInt id) w)
             = DbOk (Some {| quiz := row; quiz_questions := [] |}))
    /\ (forall user,
          fst (getQuizById (parseInt id) w) = DbOk None ->
          get_quiz (Bearer user) id w
          = (reply 404 (Error "Quiz not found"), w)).
Proof.
  intros id [s f] Hf; cbn in Hf; subst f.
  pose proof (find_quiz_none s id) as Hfind.
  unfold get_quiz, getQuizById; run.
  destruct (find _ (quizzes s)) as [row |] eqn:E; cbn.
  - split; [| split].
    + split; [discriminate |].
      intros H; apply Hfind in H; discriminate.
    + intros _ Hnq. exists row.
      apply find_some in E as [Hin Heq].
      split; [exact Hin |]. split.
      * destruct id as [n |]; cbn in Heq; [| discriminate].
        apply Z.eqb_eq in Heq; now subst.
      * unfold select_questions. rewrite filter_nil_iff; [reflexivity |].
        intros x Hx.
        destruct (sql_eq _ _) eqn:Ex; [| reflexivity].
        exfalso; apply Hnq. now exists x.
    + discriminate.
  - split; [| split].
    + split; [intros _; now apply Hfind | reflexivity].
    + intros Hex. exfalso. now apply (proj1 Hfind).
    + reflexivity.
Qed.

Lemma get_quiz_absent_iff_no_row_witness :
  (fst (getQuizById (parseInt (Some 1)) one_empty_quiz) = DbOk None
   <-> ~ quiz_exists (db one_empty_quiz) (Some 1))
  /\ (quiz_exists (db one_empty_quiz) (Some 1) ->
      ~ has_questions (db one_empty_quiz) (Some 1) ->
      exists row,
        In row (quizzes (db one_empty_quiz))
        /\ Some 1 = Some (quizzes_id row)
        /\ fst (getQuizById (parseInt (Some 1)) one_empty_quiz)
           = DbOk (Some {| quiz := row; quiz_questions := [] |}))
  /\ (forall user,
        fst (getQuizById (parseInt (Some 1)) one_empty_quiz) = DbOk None ->
        get_quiz (Bearer user) (Some 1) one_empty_quiz
        = (reply 404 (Error "Quiz not found"), one_empty_quiz)).
Proof.
  apply (get_quiz_absent_iff_no_row (Some 1) one_empty_quiz).
  reflexivity.
Defined.

(** ** Delete-Quiz *)

Lemma filter_all {A : Type} (f : A -> bool) (l : list A) :
  (forall x, In x l -> f x = true) -> filter f l = l.
Proof.
  induction l as [| x l IH]; cbn; intros H; [reflexivity |].
  rewrite (H x (or_introl eq_refl)). f_equal. apply IH; auto.
Qed.

(** What Delete-Quiz does for a caller who does not own the quiz: the
    reply is 404 and the quiz rows stay, but the first statement has
    already removed every question row of that quiz. *)
Lemma delete_quiz_not_owner (user : token) (id : option Z) (w : world) :
  faults w = [] ->
  not_owner (db w) user id ->
  delete_quiz (Bearer user) id w
  = (reply 404 (Error "Quiz not found or access denied"),
     {| db := set_questions
                (filter (fun r => negb (sql_eq (questions_quiz_id r)
                                               (bind_param (parseInt id))))
                        (questions (db w)))
                (db w);
        faults := [] |}).
Proof.
  destruct w as [s f]; cbn; intros -> Hown.
  unfold delete_quiz, deleteQuiz; run.
  rewrite filter_all.
  - rewrite Z.sub_diag; cbn. unfold set_quizzes, set_questions; cbn.
    reflexivity.
  - intros r Hin. apply negb_true_iff, andb_false_iff.
    destruct (sql_eq (SInt (quizzes_id r)) (bind_param (parseInt id))) eqn:E;
      [right | now left].
    apply (Hown r Hin).
    destruct id as [n |]; cbn in E; [| discriminate].
    apply Z.eqb_eq in E; now subst.
Qed.

(** C2 does not hold of the code. Bob, who does not own Ann's quiz 1, asks
    to delete it: the reply is 404 and the quiz row stays, but both of its
    question rows are gone, and Ann's next fetch shows the quiz without
    questions. *)
Theorem delete_by_non_owner_removes_questions :
  List.length (questions (db ann_quiz)) = 2%nat
  /\ not_owner (db ann_quiz) bob (Some 1)
  /\ fst (delete_quiz (Bearer bob) (Some 1) ann_quiz)
     = reply 404 (Error "Quiz not found or access denied")
  /\ quizzes (db (snd (delete_quiz (Bearer bob) (Some 1) ann_quiz)))
     = quizzes (db ann_quiz)
  /\ questions (db (snd (delete_quiz (Bearer bob) (Some 1) ann_quiz))) = []
  /\ (exists row,
        fst (get_quiz (Bearer ann) (Some 1)
               (snd (delete_quiz (Bearer bob) (Some 1) ann_quiz)))
        = reply 200 (Quiz {| quiz := row; quiz_questions := [] |})).
Proof.
  split; [reflexivity |]. split.
  - intros r Hin Hid. cbn in Hin.
    destruct Hin as [<- | []]; reflexivity.
  - repeat split; try reflexivity.
    eexists; reflexivity.
Qed.

(** ** Create-Quiz: the question callbacks *)


Lemma question_added_silent (total : nat) (quizId : Z) (err : bool)
  (st : progress) :
  S (questionsAdded st) <> total ->
  sent (question_added total quizId err st) = sent st.
Proof.
  intros Hne. unfold question_added; cbn [sent].
  destruct (Nat.eqb_spec (S (questionsAdded st)) total); [contradiction |].
  reflexivity.
Qed.

Lemma question_added_replies (total : nat) (quizId : Z) (err : bool)
  (st : progress) :
  S (questionsAdded st) = total ->
  sent (question_added total quizId err st)
  = sent st ++ [if hasError (question_added total quizId err st)
                then failed_reply else created_reply quizId].
Proof.
  intros He. unfold question_added; cbn [sent hasError].
  destruct (Nat.eqb_spec (S (questionsAdded st)) total); [| contradiction].
  reflexivity.
Qed.

Section Callbacks.

Variables (total : nat) (quizId : Z).

Lemma question_settles_progress (st : progress) (q : questionData)
  (w : world) :
  fst (question_settles total quizId st q w)
  = question_added total quizId (is_err (fst (addQuestion q w))) st.
Proof.
  unfold question_settles, bind, ret.
  now destruct (addQuestion q w).
Qed.

Lemma question_settles_world (st : progress) (q : questionData)
  (w : world) :
  snd (question_settles total quizId st q w) = snd (addQuestion q w).
Proof.
  unfold question_settles, bind, ret.
  now destruct (addQuestion q w).
Qed.

(** The callbacks count every completion, stay silent until the count
    reaches [total], and then write exactly one reply; an error seen once
    is never forgotten. *)
Lemma run_from_progress (order : list questionData) :
  forall (st : progress) (w : world),
    let st' := fst (foldM (question_settles total quizId) st order w) in
    questionsAdded st' = (questionsAdded st + List.length order)%nat
    /\ (hasError st = true -> hasError st' = true)
    /\ ((questionsAdded st + List.length order < total)%nat ->
        sent st = [] -> sent st' = [])
    /\ ((questionsAdded st < total)%nat ->
        (questionsAdded st + List.length order)%nat = total ->
        sent st = [] ->
        sent st' = [if hasError st' then failed_reply
                    else created_reply quizId]).
Proof.
  induction order as [| q order IH]; intros st w; cbn.
  - repeat split; auto; lia.
  - unfold bind.
    pose proof (question_settles_progress st q w) as Hst.
    destruct (question_settles total quizId st q w) as [st1 w1].
    cbn in Hst. specialize (IH st1 w1); cbn in IH.
    destruct IH as (IH1 & IH2 & IH3 & IH4).
    assert (Hadd : questionsAdded st1 = S (questionsAdded st))
      by (rewrite Hst; reflexivity).
    assert (Hsent : (S (questionsAdded st) <> total)%nat ->
                    sent st1 = sent st).
    { intros Hne. rewrite Hst. now apply question_added_silent. }
    repeat split.
    + rewrite IH1, Hadd; lia.
    + intros He. apply IH2. rewrite Hst; cbn. rewrite He.
      now destruct (is_err _).
    + intros Hlt Hs. apply IH3; [rewrite Hadd; lia |].
      rewrite Hsent; [exact Hs | lia].
    + intros Hlt Htot Hs.
      destruct order as [| q' order].
      * cbn in *. rewrite Hst.
        rewrite question_added_replies by lia.
        rewrite Hs; reflexivity.
      * cbn in Htot.
        apply IH4; [rewrite Hadd; lia | rewrite Hadd; cbn; lia |].
        rewrite Hsent; [exact Hs | lia].
Qed.


End Callbacks.

(** ** Schedules *)

Lemma take_nth_perm {A : Type} (l : list A) :
  forall k, (k < List.length l)%nat ->
    exists x rest, take_nth k l = Some (x, rest) /\ Permutation (x :: rest) l.
Proof.
  induction l as [| y l IH]; intros k Hk; cbn in Hk; [lia |].
  destruct k as [| k].
  - exists y, l; split; [reflexivity | apply Permutation_refl].
  - destruct (IH k) as (x & rest & E & P); [lia |].
    exists x, (y :: rest); cbn; rewrite E; split; [reflexivity |].
    apply perm_trans with (y :: x :: rest); [apply perm_swap |].
    now apply perm_skip.
Qed.

Lemma completion_order_perm {A : Type} (fuel : nat) :
  forall (picks : list nat) (l : list A),
    List.length l = fuel -> Permutation (completion_order fuel picks l) l.
Proof.
  induction fuel as [| fuel IH]; intros picks l Hl; cbn.
  - destruct l; [apply perm_nil | discriminate].
  - destruct (take_nth_perm l (Nat.modulo (hd 0%nat picks) (List.length l)))
      as (x & rest & E & P).
    { apply Nat.mod_upper_bound; lia. }
    rewrite E.
    apply perm_trans with (x :: rest); [| exact P].
    apply perm_skip, IH.
    apply Permutation_length in P; cbn in P; lia.
Qed.

Lemma completions_perm {A : Type} (picks : list nat) (l : list A) :
  Permutation (completions picks l) l.
Proof. now apply completion_order_perm. Qed.

Lemma forEach_index_length {A B : Type} (f : A -> nat -> B) (l : list A) :
  forall k, List.length (forEach_index f k l) = List.length l.
Proof. induction l; intros k; cbn; auto. Qed.

Lemma completions_issued_length (picks : list nat) (quizId : Z)
  (qs : list question) :
  List.length (completions picks (issued quizId qs)) = List.length qs.
Proof.
  rewrite (Permutation_length (completions_perm picks (issued quizId qs))).
  apply forEach_index_length.
Qed.




(** ** ORDER BY *)

Lemma insert_by_map {A B : Type} (g : A -> B) (leA : A -> A -> bool)
  (leB : B -> B -> bool) :
  (forall x y, leB (g x) (g y) = leA x y) ->
  forall x l, map g (insert_by leA x l) = insert_by leB (g x) (map g l).
Proof.
  intros Hg x l; induction l as [| y l IH]; cbn; [reflexivity |].
  rewrite Hg. destruct (leA x y); cbn; [reflexivity |]. now rewrite IH.
Qed.

Lemma sort_by_map {A B : Type} (g : A -> B) (leA : A -> A -> bool)
  (leB : B -> B -> bool) :
  (forall x y, leB (g x) (g y) = leA x y) ->
  forall l, map g (sort_by leA l) = sort_by leB (map g l).
Proof.
  intros Hg l; induction l as [| x l IH]; cbn; [reflexivity |].
  fold (sort_by leA l) (sort_by leB (map g l)).
  now rewrite (insert_by_map g leA leB Hg), IH.
Qed.

Ltac leb_cases :=
  repeat match goal with
         | |- context [Nat.leb ?a ?b] => destruct (Nat.leb_spec a b)
         end.

Lemma insert_leb_comm (x y : nat) (l : list nat) :
  insert_by Nat.leb x (insert_by Nat.leb y l)
  = insert_by Nat.leb y (insert_by Nat.leb x l).
Proof.
  induction l as [| z l IH]; cbn.
  - leb_cases; try lia; try reflexivity.
    assert (x = y) by lia; subst; reflexivity.
  - leb_cases; cbn; leb_cases; try lia; try reflexivity.
    + assert (x = y) by lia; subst; reflexivity.
    + now rewrite IH.
Qed.

Lemma sort_leb_perm (l l' : list nat) :
  Permutation l l' -> sort_by Nat.leb l = sort_by Nat.leb l'.
Proof.
  induction 1 as [| x l l' _ IH | x y l | l l' l'' _ IH1 _ IH2]; cbn.
  - reflexivity.
  - fold (sort_by Nat.leb l) (sort_by Nat.leb l'). now rewrite IH.
  - apply insert_leb_comm.
  - congruence.
Qed.

Lemma sort_leb_seq (n : nat) :
  forall a, sort_by Nat.leb (seq a n) = seq a n.
Proof.
  induction n as [| n IH]; intros a; cbn; [reflexivity |].
  fold (sort_by Nat.leb (seq (S a) n)). rewrite IH.
  destruct n as [| n]; cbn; [reflexivity |].
  destruct (Nat.leb_spec a (S a)); [reflexivity | lia].
Qed.

(** Sorting any schedule of the indices 0 .. n-1 restores their order. *)
Lemma sort_schedule (picks : list nat) (n : nat) :
  sort_by Nat.leb (completions picks (seq 0 n)) = seq 0 n.
Proof.
  rewrite (sort_leb_perm _ _ (completions_perm picks (seq 0 n))).
  apply sort_leb_seq.
Qed.

Lemma take_nth_map {A B : Type} (g : A -> B) (l : list A) :
  forall k,
    take_nth k (map g l)
    = match take_nth k l with
      | Some (x, rest) => Some (g x, map g rest)
      | None => None
      end.
Proof.
  induction l as [| y l IH]; intros k; cbn; [reflexivity |].
  destruct k as [| k]; [reflexivity |].
  rewrite IH. now destruct (take_nth k l) as [[x rest] |].
Qed.

Lemma completion_order_map {A B : Type} (g : A -> B) (fuel : nat) :
  forall picks l,
    completion_order fuel picks (map g l)
    = map g (completion_order fuel picks l).
Proof.
  induction fuel as [| fuel IH]; intros picks l; cbn; [reflexivity |].
  rewrite length_map, take_nth_map.
  destruct (take_nth _ l) as [[x rest] |]; cbn; [| reflexivity].
  now rewrite IH.
Qed.

Lemma completions_map {A B : Type} (g : A -> B) (picks : list nat)
  (l : list A) :
  completions picks (map g l) = map g (completions picks l).
Proof.
  unfold completions. rewrite length_map. apply completion_order_map.
Qed.

Lemma forEach_index_nth {A B : Type} (f : A -> nat -> B) (d : A)
  (l : list A) :
  forall k,
    forEach_index f k l
    = map (fun i => f (nth (i - k) l d) i) (seq k (List.length l)).
Proof.
  induction l as [| x l IH]; intros k; cbn; [reflexivity |].
  rewrite Nat.sub_diag. f_equal.
  rewrite IH. apply map_ext_in.
  intros i Hi. apply in_seq in Hi.
  replace (i - k)%nat with (S (i - S k)) by lia. reflexivity.
Qed.

Lemma forEach_index_const {A B C : Type} (f : A -> nat -> B) (g : B -> C)
  (h : A -> C) (l : list A) :
  Forall (fun x => forall i, g (f x i) = h x) l ->
  forall k, map g (forEach_index f k l) = map h l.
Proof.
  induction 1 as [| x l Hx _ IH]; intros k; cbn; [reflexivity |].
  now rewrite Hx, IH.
Qed.

(** ** Create-Quiz followed by Get-Quiz *)

Lemma addQuestion_insertable (q : questionData) (w : world) :
  faults w = [] ->
  insertable q = true ->
  addQuestion q w
  = (DbOk tt,
     {| db := insert_question (stored_row (seq_questions (db w) + 1) q) (db w);
        faults := [] |}).
Proof.
  destruct w as [s f]; cbn; intros -> Hq.
  unfold addQuestion; run. unfold insertable in Hq.
  apply negb_true_iff in Hq. rewrite Hq. reflexivity.
Qed.

Lemma question_settles_eq (total : nat) (quizId : Z) (st : progress)
  (q : questionData) (w w' : world) (r : dbres unit) :
  addQuestion q w = (r, w') ->
  question_settles total quizId st q w
  = (question_added total quizId (is_err r) st, w').
Proof. intros H. unfold question_settles, bind, ret. now rewrite H. Qed.

Lemma run_all_insertable (total : nat) (quizId : Z)
  (order : list questionData) :
  forall (st : progress) (w : world),
    faults w = [] ->
    forallb insertable order = true ->
    let r := foldM (question_settles total quizId) st order w in
    faults (snd r) = []
    /\ questions (db (snd r))
       = questions (db w) ++ stored_rows (seq_questions (db w)) order
    /\ hasError (fst r) = hasError st.
Proof.
  induction order as [| q order IH]; intros st w Hf Ho; cbn.
  - now rewrite app_nil_r.
  - cbn in Ho. apply andb_true_iff in Ho as [Hq Ho].
    unfold bind.
    rewrite (question_settles_eq total quizId st q w _ _
               (addQuestion_insertable q w Hf Hq)).
    match goal with
    | |- context [foldM _ ?st1 order ?w1] =>
        destruct (IH st1 w1 eq_refl Ho) as (H1 & H2 & H3)
    end.
    rewrite H1, H2, H3. cbn. rewrite <- app_assoc. auto.
Qed.

Lemma js_or_empty_not_null (v : jsval) :
  is_null (bind_param (js_or v (JStr ""))) = false.
Proof.
  unfold js_or. destruct (truthy v) eqn:E; [| reflexivity].
  now apply truthy_not_null.
Qed.

Lemma well_formed_inv (q : question) :
  well_formed q = true ->
  exists t opts c,
    q = {| q_text := JStr t; q_options := Some opts; q_correct := JNum c |}
    /\ (2 <= List.length opts <= 4)%nat
    /\ forallb nonempty_string opts = true
    /\ 0 <= c < Z.of_nat (List.length opts).
Proof.
  destruct q as [[| | | | |t] [opts |] [| | | |c |]]; cbn; try discriminate.
  intros H. repeat (apply andb_true_iff in H as [H ?]).
  exists t, opts, c. repeat split; try reflexivity; try assumption.
  - now apply Nat.leb_le.
  - now apply Nat.leb_le.
  - now apply Z.leb_le.
  - now apply Z.ltb_lt.
Qed.

Lemma well_formed_insertable (quizId : Z) (q : question) (i : nat) :
  well_formed q = true -> insertable (question_data quizId q i) = true.
Proof.
  intros H. destruct (well_formed_inv q H) as (t & opts & c & -> & _).
  unfold insertable; cbn.
  now rewrite !js_or_empty_not_null.
Qed.

Lemma slot_present (v d : jsval) :
  nonempty_string v = true ->
  column_value (bind_param (js_or v d)) = v /\ keep_option v = true.
Proof.
  destruct v as [| | | | | s]; cbn; try discriminate.
  intros H. unfold js_or; cbn. rewrite H. split; reflexivity.
Qed.

(** What comes back for a well-formed question is what was sent. *)
Lemma format_stored_question (id quizId : Z) (q : question) (i : nat) :
  well_formed q = true ->
  returned (format_question (stored_row id (question_data quizId q i)))
  = submitted q.
Proof.
  intros H.
  destruct (well_formed_inv q H) as (t & opts & c & -> & [Hlo Hhi] & Hs & _).
  unfold returned, submitted, format_question, stored_row, question_data,
    options_of; cbn [text options correct q_text q_options q_correct
                     questions_question_text questions_option_a
                     questions_option_b questions_option_c
                     questions_option_d questions_correct_answer
                     question_text option_a option_b option_c option_d
                     correct_answer].
  f_equal. f_equal.
  destruct opts as [| a [| b [| c' [| d [| e opts]]]]]; cbn in Hlo, Hhi;
    try lia; cbn in Hs;
    repeat (apply andb_true_iff in Hs as [? Hs]);
    unfold js_index; cbn [nth].
  - destruct (slot_present a (JStr "")) as [-> Ha]; [assumption |].
    destruct (slot_present b (JStr "")) as [-> Hb]; [assumption |].
    cbn. now rewrite Ha, Hb.
  - destruct (slot_present a (JStr "")) as [-> Ha]; [assumption |].
    destruct (slot_present b (JStr "")) as [-> Hb]; [assumption |].
    destruct (slot_present c' JNull) as [-> Hc]; [assumption |].
    cbn. now rewrite Ha, Hb, Hc.
  - destruct (slot_present a (JStr "")) as [-> Ha]; [assumption |].
    destruct (slot_present b (JStr "")) as [-> Hb]; [assumption |].
    destruct (slot_present c' JNull) as [-> Hc]; [assumption |].
    destruct (slot_present d JNull) as [-> Hd]; [assumption |].
    cbn. now rewrite Ha, Hb, Hc, Hd.
Qed.

Lemma issued_as_map (quizId : Z) (d : question) (qs : list question) :
  issued quizId qs
  = map (fun i => question_data quizId (nth i qs d) i)
        (seq 0 (List.length qs)).
Proof.
  unfold issued. rewrite (forEach_index_nth _ d).
  apply map_ext. intros i. now rewrite Nat.sub_0_r.
Qed.

Lemma stored_rows_map {C : Type} (g : question_row -> C)
  (h : questionData -> C) :
  (forall id q, g (stored_row id q) = h q) ->
  forall l last, map g (stored_rows last l) = map h l.
Proof.
  intros Hg l; induction l as [| q l IH]; intros last; cbn; [reflexivity |].
  now rewrite Hg, IH.
Qed.

Lemma stored_rows_of_quiz (quizId : Z) (l : list questionData) :
  Forall (fun q => quiz_id q = JNum quizId) l ->
  forall last,
    filter (fun r => sql_eq (questions_quiz_id r) (SInt quizId))
           (stored_rows last l)
    = stored_rows last l.
Proof.
  induction 1 as [| q l Hq _ IH]; intros last; cbn; [reflexivity |].
  rewrite Hq; cbn. rewrite Z.eqb_refl. now rewrite IH.
Qed.

(** Whatever the order in which the inserts ran, the rows of one
    Create-Quiz, sorted by question_order and formatted, are the submitted
    questions in the submitted order. *)
Lemma sorted_views (quizId last : Z) (picks : list nat)
  (qs : list question) :
  forallb well_formed qs = true ->
  map (fun r => returned (format_question r))
      (sort_by order_le
         (stored_rows last (completions picks (issued quizId qs))))
  = map submitted qs.
Proof.
  intros Hwf.
  destruct qs as [| d qs']; [reflexivity |].
  set (qs := d :: qs') in *.
  set (key := fun r : question_row =>
                (questions_question_order r, returned (format_question r))).
  set (le_key := fun a b : sqlval * (jsval * list jsval * jsval) =>
                   sql_le (fst a) (fst b)).
  set (D := fun i : nat => question_data quizId (nth i qs d) i).
  set (K := fun i : nat =>
              (SInt (Z.of_nat i),
               returned (format_question (stored_row 0 (D i))))).
  transitivity
    (map snd (map key (sort_by order_le
       (stored_rows last (completions picks (issued quizId qs)))))).
  { rewrite map_map. reflexivity. }
  rewrite (sort_by_map key order_le le_key) by reflexivity.
  rewrite (issued_as_map quizId d qs), completions_map.
  rewrite (stored_rows_map key (fun q => key (stored_row 0 q)))
    by reflexivity.
  rewrite map_map.
  change (map (fun x => key (stored_row 0 (D x)))
              (completions picks (seq 0 (List.length qs))))
    with (map K (completions picks (seq 0 (List.length qs)))).
  rewrite <- (sort_by_map K Nat.leb le_key).
  2:{ intros x y. unfold le_key, K; cbn.
      destruct (Nat.leb_spec x y), (Z.leb_spec (Z.of_nat x) (Z.of_nat y));
        try reflexivity; lia. }
  rewrite sort_schedule, map_map; cbn [snd K].
  transitivity
    (map (fun q => returned (format_question (stored_row 0 q)))
         (issued quizId qs)).
  { rewrite (issued_as_map quizId d qs), map_map. reflexivity. }
  unfold issued. apply forEach_index_const.
  apply Forall_forall. intros q Hq i.
  apply format_stored_question.
  rewrite forallb_forall in Hwf. now apply Hwf.
Qed.

Lemma find_app_fresh {A : Type} (f : A -> bool) (l : list A) (x : A) :
  (forall y, In y l -> f y = false) -> f x = true ->
  find f (l ++ [x]) = Some x.
Proof.
  intros Hl Hx; induction l as [| y l IH]; cbn; [now rewrite Hx |].
  rewrite (Hl y (or_introl eq_refl)). apply IH. intros z Hz; apply Hl.
  now right.
Qed.

Lemma issued_quiz_id (quizId : Z) (qs : list question) :
  forall k,
    Forall (fun q => quiz_id q = JNum quizId)
           (forEach_index (question_data quizId) k qs).
Proof.
  induction qs as [| q qs IH]; intros k; cbn; constructor;
    [reflexivity | apply IH].
Qed.

Lemma issued_insertable (quizId : Z) (qs : list question) :
  forallb well_formed qs = true ->
  forall k,
    forallb insertable (forEach_index (question_data quizId) k qs) = true.
Proof.
  induction qs as [| q qs IH]; intros H k; cbn in *; [reflexivity |].
  apply andb_true_iff in H as [Hq H].
  now rewrite (well_formed_insertable quizId q k Hq), IH.
Qed.

Lemma forallb_perm {A : Type} (f : A -> bool) (l l' : list A) :
  Permutation l l' -> forallb f l' = true -> forallb f l = true.
Proof.
  intros P H. rewrite forallb_forall in *.
  intros x Hx. apply H. now apply (Permutation_in _ P).
Qed.

Lemma returned_valid_index (vs : list question_view) :
  forall qs,
    map returned vs = map submitted qs ->
    forallb well_formed qs = true ->
    Forall valid_index vs.
Proof.
  induction vs as [| v vs IH]; intros [| q qs] Hm Hwf; cbn in *;
    try discriminate; constructor.
  - apply andb_true_iff in Hwf as [Hq _].
    destruct (well_formed_inv q Hq) as (t & opts & c & -> & _ & _ & Hc).
    unfold returned, submitted, options_of in Hm; cbn in Hm.
    injection Hm as _ Ho Hcv _. exists c. now rewrite Ho, Hcv.
  - apply andb_true_iff in Hwf as [_ Hwf].
    injection Hm as _ Hm. now apply (IH qs).
Qed.

Lemma getQuizById_found (n : Z) (w : world) (row : quiz_row) :
  faults w = [] ->
  find (fun r => sql_eq (SInt (quizzes_id r)) (SInt n)) (quizzes (db w))
  = Some row ->
  getQuizById (JNum n) w
  = (DbOk (Some {| quiz := row;
                   quiz_questions :=
                     map format_question (select_questions (SInt n) (db w)) |}),
     w).
Proof.
  destruct w as [s f]; cbn; intros -> Hfind.
  unfold getQuizById; run. now rewrite Hfind.
Qed.

(** C1. A valid Create-Quiz request whose questions are well formed, run
    without storage errors on a consistent store, is answered 201 with a
    new quiz id, under any completion order of its question writes; and a
    Get-Quiz for that id by any authenticated caller then returns the
    quiz stored under that id, with the trimmed title and the creator as
    owner, and the questions in the submitted order, each with the
    submitted text, the submitted options as a dense list and the
    submitted correct index, which is a valid index into that list. *)
Theorem created_quiz_read_back :
  forall (picks : list nat) (user reader : token) (body : quiz_body)
         (w : world) (t : string) (q : question) (qs : list question),
    b_title body = JStr t ->
    trim t <> ""%string ->
    trimmable (b_description body) ->
    b_questions body = Some (q :: qs) ->
    forallb well_formed (q :: qs) = true ->
    faults w = [] ->
    consistent (db w) = true ->
    let quizId := seq_quizzes (db w) + 1 in
    let created := post_quizzes picks (Bearer user) body w in
    fst created = [created_reply quizId]
    /\ exists view,
         fst (get_quiz (Bearer reader) (Some quizId) (snd created))
         = reply 200 (Quiz view)
         /\ quizzes_id (quiz view) = quizId
         /\ quizzes_title (quiz view) = SText (trim t)
         /\ quizzes_user_id (quiz view) = SInt (userId user)
         /\ map returned (quiz_questions view) = map submitted (q :: qs)
         /\ Forall valid_index (quiz_questions view).
Proof.
  intros picks user reader body w t q qs Ht Hne Hd Hq Hwf Hf Hc quizId
    created.
  assert (Hhd : hd false (faults w) = false) by now rewrite Hf.
  subst created.
  rewrite (post_quizzes_accepted picks user body w t q qs Ht Hne Hd Hq Hhd).
  fold quizId. rewrite Hf; cbn [tl].
  set (row := quiz_row_of (db w) user body t).
  set (w1 := {| db := insert_quiz row (db w); faults := [] |}).
  unfold add_questions.
  set (total := List.length (q :: qs)).
  set (order := completions picks (issued quizId (q :: qs))).
  assert (Hlen : List.length order = total)
    by apply completions_issued_length.
  assert (Hins : forallb insertable order = true).
  { apply (forallb_perm _ _ _ (completions_perm picks _)).
    now apply issued_insertable. }
  assert (Hqid : Forall (fun x => quiz_id x = JNum quizId) order).
  { apply (Permutation_Forall
             (Permutation_sym (completions_perm picks _))).
    apply issued_quiz_id. }
  pose proof (run_all_insertable total quizId order no_progress w1
                eq_refl Hins) as (Hf' & Hqs & Herr).
  pose proof (settle_quizzes total quizId order w1) as [Hqz _].
  pose proof (run_from_progress total quizId order no_progress w1)
    as (_ & _ & _ & Hsent).
  fold (settle total quizId order w1) in Hf', Hqs, Herr, Hsent.
  destruct (settle total quizId order w1) as [st w'].
  cbn [fst snd] in *.
  split.
  - rewrite Hsent, Herr; [reflexivity | cbn; lia | exact Hlen | reflexivity].
  - apply andb_true_iff in Hc as [Hc1 Hc2].
    rewrite forallb_forall in Hc1, Hc2.
    assert (Hfind :
      find (fun r => sql_eq (SInt (quizzes_id r)) (SInt quizId))
           (quizzes (db w')) = Some row).
    { rewrite Hqz. subst w1; cbn [db insert_quiz quizzes].
      apply find_app_fresh.
      - intros y Hy. specialize (Hc1 y Hy). cbn.
        apply Z.leb_le in Hc1. apply Z.eqb_neq. subst quizId; lia.
      - cbn. apply Z.eqb_refl. }
    unfold get_quiz; cbn [authenticateToken parseInt].
    unfold bind. rewrite (getQuizById_found quizId w' row Hf' Hfind).
    unfold ret; cbn [fst].
    eexists; split; [reflexivity |]. cbn [quiz quiz_questions].
    split; [reflexivity |]. split; [reflexivity |]. split; [reflexivity |].
    assert (Hviews :
      map returned (map format_question (select_questions (SInt quizId)
                                           (db w')))
      = map submitted (q :: qs)).
    { unfold select_questions. rewrite Hqs, filter_app.
      subst w1; cbn [db insert_quiz questions seq_questions].
      rewrite filter_nil_iff.
      - cbn [app]. rewrite (stored_rows_of_quiz quizId order Hqid).
        rewrite map_map. now apply sorted_views.
      - intros x Hx. specialize (Hc2 x Hx).
        destruct (questions_quiz_id x) as [| k |]; try reflexivity.
        cbn. apply Z.leb_le in Hc2. apply Z.eqb_neq. subst quizId; lia. }
    split; [exact Hviews |].
    now apply (returned_valid_index _ (q :: qs)).
Qed.

Lemma created_quiz_read_back_witness :
  fst (post_quizzes [1%nat] (Bearer ann) (sample_quiz_body (JNum 5)) fresh)
  = [created_reply 1]
  /\ exists view,
       fst (get_quiz (Bearer bob) (Some 1)
              (snd (post_quizzes [1%nat] (Bearer ann)
                      (sample_quiz_body (JNum 5)) fresh)))
       = reply 200 (Quiz view)
       /\ quizzes_id (quiz view) = 1
       /\ quizzes_title (quiz view) = SText (trim "  Capitals ")
       /\ quizzes_user_id (quiz view) = SInt (userId ann)
       /\ map returned (quiz_questions view)
          = map submitted
              [ {| q_text := JStr "Capital of France?";
                   q_options := Some [JStr "Paris"; JStr "Rome"; JStr "Oslo"];
                   q_correct := JNum 0 |};
                {| q_text := JStr "Capital of Italy?";
                   q_options := Some [JStr "Paris"; JStr "Rome"];
                   q_correct := JNum 1 |} ]
       /\ Forall valid_index (quiz_questions view).
Proof.
  apply (created_quiz_read_back [1%nat] ann bob (sample_quiz_body (JNum 5))
           fresh "  Capitals "
           {| q_text := JStr "Capital of France?";
              q_options := Some [JStr "Paris"; JStr "Rome"; JStr "Oslo"];
              q_correct := JNum 0 |}
           [ {| q_text := JStr "Capital of Italy?";
                q_options := Some [JStr "Paris"; JStr "Rome"];
                q_correct := JNum 1 |} ]).
  - reflexivity.
  - vm_compute; discriminate.
  - left; reflexivity.
  - reflexivity.
  - reflexivity.
  - reflexivity.
  - reflexivity.
Defined.

(** The example of the specification: quiz "T" with the one question
    "Q1", options A and B, correct index 0, comes back as submitted, with
    two options only. *)
Example spec_example_round_trip :
  let body := {| b_title := JStr "T"; b_description := JUndefined;
                 b_timeLimit := JUndefined;
                 b_questions :=
                   Some [ {| q_text := JStr "Q1";
                             q_options := Some [JStr "A"; JStr "B"];
                             q_correct := JNum 0 |} ] |} in
  let (replies, w) := post_quizzes [] (Bearer ann) body fresh in
  replies = [created_reply 1]
  /\ fst (get_quiz (Bearer ann) (Some 1) w)
     = reply 200
         (Quiz {| quiz := {| quizzes_id := 1;
                             quizzes_title := SText "T";
                             quizzes_description := SText "";
                             quizzes_time_limit := SInt 10;
                             quizzes_user_id := SInt 1 |};
                  quiz_questions :=
                    [ {| id := JNum 1; text := JStr "Q1";
                         options := [JStr "A"; JStr "B"];
                         correct := JNum 0 |} ] |}).
Proof. split; reflexivity. Qed.

(** ** Consistency is an invariant of the handlers *)

Ltac innermost x :=
  lazymatch x with
  | context [match _ with _ => _ end] => fail
  | _ => idtac
  end.

Ltac branches :=
  repeat (match goal with
          | |- context [match ?x with _ => _ end] => is_var x; destruct x
          | |- context [match ?x with _ => _ end] => innermost x; destruct x
          end; cbn).

Lemma same_quizzes_consistent (w w' : world) :
  same_quizzes w w' ->
  consistent (db w) = true -> consistent (db w') = true.
Proof.
  intros (H1 & H2 & H3). unfold consistent. now rewrite H1, H2, H3.
Qed.

Lemma post_register_same_quizzes (B : Bcrypt) (body : register_body)
  (w : world) :
  same_quizzes w (snd (post_register body w)).
Proof.
  destruct w as [s f].
  unfold post_register, getUserByEmail, createUser, same_quizzes; run.
  branches; repeat split; reflexivity.
Qed.

Lemma post_login_same_quizzes (B : Bcrypt) (body : login_body) (w : world) :
  same_quizzes w (snd (post_login body w)).
Proof.
  destruct w as [s f].
  unfold post_login, getUserByEmail, same_quizzes; run.
  branches; repeat split; reflexivity.
Qed.

Lemma get_quiz_same_quizzes (a : authorization) (id : option Z) (w : world) :
  same_quizzes w (snd (get_quiz a id w)).
Proof.
  destruct w as [s f].
  unfold get_quiz, getQuizById, same_quizzes; run.
  branches; repeat split; reflexivity.
Qed.

Lemma post_quiz_results_same_quizzes (a : authorization) (body : result_body)
  (w : world) :
  same_quizzes w (snd (post_quiz_results a body w)).
Proof.
  destruct w as [s f].
  unfold post_quiz_results, saveResult, same_quizzes; run.
  branches; repeat split; reflexivity.
Qed.

Lemma forallb_filter {A : Type} (f g : A -> bool) (l : list A) :
  forallb f l = true -> forallb f (filter g l) = true.
Proof.
  induction l as [| x l IH]; cbn; [reflexivity |].
  intros H; apply andb_true_iff in H as [Hx Hl].
  destruct (g x); cbn; [rewrite Hx |]; now apply IH.
Qed.

Lemma delete_quiz_consistent (a : authorization) (id : option Z) (w : world) :
  consistent (db w) = true ->
  consistent (db (snd (delete_quiz a id w))) = true.
Proof.
  destruct w as [s f]; cbn. intros H.
  apply andb_true_iff in H as [H1 H2].
  unfold delete_quiz, deleteQuiz, consistent; run.
  branches; unfold consistent; cbn;
    rewrite ?H1, ?H2, ?forallb_filter by assumption; reflexivity.
Qed.

Lemma foldM_preserves_in {A B : Type} (P : world -> Prop)
  (f : A -> B -> M A) (l : list B) :
  (forall a x w, In x l -> P w -> P (snd (f a x w))) ->
  forall a w, P w -> P (snd (foldM f a l w)).
Proof.
  induction l as [| x l IH]; intros Hf a w Hw; cbn; [exact Hw |].
  unfold bind. pose proof (Hf a x w (or_introl eq_refl) Hw) as H1.
  destruct (f a x w) as [a' w1]; cbn in *.
  apply IH; [| exact H1]. intros; apply Hf; auto.
Qed.

Lemma forallb_weaken {A : Type} (f g : A -> bool) (l : list A) :
  (forall x, f x = true -> g x = true) ->
  forallb f l = true -> forallb g l = true.
Proof.
  intros Hfg; induction l as [| x l IH]; cbn; [reflexivity |].
  intros H; apply andb_true_iff in H as [Hx Hl].
  now rewrite (Hfg x Hx), IH.
Qed.

Lemma consistent_insert_quiz (s : store) (row : quiz_row) :
  consistent s = true ->
  quizzes_id row = seq_quizzes s + 1 ->
  consistent (insert_quiz row s) = true.
Proof.
  intros H Hid. apply andb_true_iff in H as [H1 H2].
  unfold consistent; cbn. rewrite forallb_app; cbn.
  rewrite Z.leb_refl, andb_true_r. apply andb_true_iff; split.
  - refine (forallb_weaken _ _ _ _ H1).
    intros x Hx. apply Z.leb_le in Hx. apply Z.leb_le. lia.
  - refine (forallb_weaken _ _ _ _ H2).
    intros x Hx. destruct (questions_quiz_id x); try discriminate.
    apply Z.leb_le in Hx. apply Z.leb_le. lia.
Qed.

Lemma consistent_insert_question (s : store) (row : question_row) :
  consistent s = true ->
  questions_quiz_id row = SInt (seq_quizzes s) ->
  consistent (insert_question row s) = true.
Proof.
  intros H Hid. apply andb_true_iff in H as [H1 H2].
  unfold consistent; cbn. rewrite forallb_app; cbn.
  rewrite H1, H2, Hid, Z.leb_refl. reflexivity.
Qed.

Lemma createQuiz_consistent (q : quizData) (w : world) :
  consistent (db w) = true ->
  consistent (db (snd (createQuiz q w))) = true
  /\ (forall id, fst (createQuiz q w) = DbOk id ->
                 seq_quizzes (db (snd (createQuiz q w))) = id).
Proof.
  destruct w as [s f]; cbn; intros H.
  unfold createQuiz; run.
  destruct f as [| [|] f]; cbn; try (split; [exact H | discriminate]).
  all: match goal with
       | |- context [if ?c then _ else _] => destruct c
       end; cbn; try (split; [exact H | discriminate]).
  all: split; [now apply consistent_insert_quiz
              | intros id E; now injection E].
Qed.

Lemma addQuestion_consistent (q : questionData) (w : world) :
  consistent (db w) = true ->
  quiz_id q = JNum (seq_quizzes (db w)) ->
  consistent (db (snd (addQuestion q w))) = true
  /\ seq_quizzes (db (snd (addQuestion q w))) = seq_quizzes (db w).
Proof.
  destruct w as [s f]; cbn; intros H Hq.
  unfold addQuestion; run.
  destruct f as [| [|] f]; cbn; try (split; [exact H | reflexivity]).
  all: match goal with
       | |- context [if ?c then _ else _] => destruct c
       end; cbn; try (split; [exact H | reflexivity]).
  all: split; [apply consistent_insert_question; [exact H |]; cbn;
               now rewrite Hq
              | reflexivity].
Qed.

Lemma add_questions_consistent (picks : list nat) (quizId : Z)
  (qs : list question) (w : world) :
  consistent (db w) = true ->
  seq_quizzes (db w) = quizId ->
  consistent (db (snd (add_questions picks quizId qs w))) = true.
Proof.
  intros Hc Hs. unfold add_questions, settle.
  apply (foldM_preserves_in
           (fun w' => consistent (db w') = true
                      /\ seq_quizzes (db w') = quizId));
    [| now split].
  intros st q w1 Hin [H1 H2].
  rewrite question_settles_world.
  assert (Hq : quiz_id q = JNum (seq_quizzes (db w1))).
  { rewrite H2.
    pose proof (issued_quiz_id quizId qs 0) as Hall.
    rewrite Forall_forall in Hall. apply Hall.
    now apply (Permutation_in _ (completions_perm picks _)). }
  destruct (addQuestion_consistent q w1 H1 Hq) as [H3 H4].
  split; [exact H3 | congruence].
Qed.

Lemma post_quizzes_consistent (picks : list nat) (a : authorization)
  (body : quiz_body) (w : world) :
  consistent (db w) = true ->
  consistent (db (snd (post_quizzes picks a body w))) = true.
Proof.
  intros Hc. unfold post_quizzes.
  destruct (authenticateToken a) as [r | user]; [exact Hc |].
  destruct (b_title body) as [| | | b | n | t];
    try (destruct (truthy _); exact Hc).
  destruct ((t =? "")%string || (trim t =? "")%string)%bool; [exact Hc |].
  destruct (b_questions body) as [[| q qs] |]; try exact Hc.
  match goal with
  | |- context [match ?d with Some _ => _ | None => _ end] =>
      destruct d as [d' |]; [| exact Hc]
  end.
  unfold bind.
  match goal with
  | |- context [createQuiz ?qd w] =>
      pose proof (createQuiz_consistent qd w Hc) as [H1 H2];
      destruct (createQuiz qd w) as [[| quizId] w1]; [exact H1 |]
  end.
  cbn in H1, H2. specialize (H2 quizId eq_refl).
  pose proof (add_questions_consistent picks quizId (q :: qs) w1 H1 H2) as H.
  destruct (add_questions picks quizId (q :: qs) w1) as [st w2]. exact H.
Qed.

(** The empty store is consistent and every handler keeps a consistent
    store consistent. *)
Lemma consistent_invariant (B : Bcrypt) (w : world) :
  consistent empty_store = true
  /\ (consistent (db w) = true ->
      (forall body, consistent (db (snd (post_register body w))) = true)
      /\ (forall body, consistent (db (snd (post_login body w))) = true)
      /\ (forall picks a body,
            consistent (db (snd (post_quizzes picks a body w))) = true)
      /\ (forall a id, consistent (db (snd (get_quiz a id w))) = true)
      /\ (forall a id, consistent (db (snd (delete_quiz a id w))) = true)
      /\ (forall a body,
            consistent (db (snd (post_quiz_results a body w))) = true)).
Proof.
  split; [reflexivity |]. intros Hc. repeat split; intros.
  - apply (same_quizzes_consistent w); [apply post_register_same_quizzes | exact Hc].
  - apply (same_quizzes_consistent w); [apply post_login_same_quizzes | exact Hc].
  - now apply post_quizzes_consistent.
  - apply (same_quizzes_consistent w); [apply get_quiz_same_quizzes | exact Hc].
  - now apply delete_quiz_consistent.
  - apply (same_quizzes_consistent w); [apply post_quiz_results_same_quizzes | exact Hc].
Qed.

(** * Further properties of the handlers *)

(** ** The authentication gate *)

(** X1. When the gate refuses a request, with 401 for a missing token or
    403 for a rejected one, every protected handler answers with that
    refusal and neither reads nor writes the store. *)
Theorem refused_requests_touch_nothing :
  forall (a : authorization) (r : response) (w : world),
    authenticateToken a = inl r ->
    (r = reply 401 (Error "Access token required")
     \/ r = reply 403 (Error "Invalid token"))
    /\ (forall picks body, post_quizzes picks a body w = ([r], w))
    /\ (forall id, get_quiz a id w = (r, w))
    /\ (forall id, delete_quiz a id w = (r, w))
    /\ (forall body, post_quiz_results a body w = (r, w))
    /\ (forall created_at, get_my_quizzes created_at a w = (Refused r, w))
    /\ (forall completed_at,
          get_my_results completed_at a w = (Refused r, w)).
Proof.
  intros a r w H.
  unfold post_quizzes, get_quiz, delete_quiz, post_quiz_results,
    get_my_quizzes, get_my_results.
  rewrite H. split; [| repeat split].
  destruct a; cbn in H; inversion H; auto.
Qed.

Lemma refused_requests_touch_nothing_witness :
  (reply 403 (Error "Invalid token")
   = reply 401 (Error "Access token required")
   \/ reply 403 (Error "Invalid token") = reply 403 (Error "Invalid token"))
  /\ (forall picks body,
        post_quizzes picks InvalidToken body one_user
        = ([reply 403 (Error "Invalid token")], one_user))
  /\ (forall id,
        get_quiz InvalidToken id one_user
        = (reply 403 (Error "Invalid token"), one_user))
  /\ (forall id,
        delete_quiz InvalidToken id one_user
        = (reply 403 (Error "Invalid token"), one_user))
  /\ (forall body,
        post_quiz_results InvalidToken body one_user
        = (reply 403 (Error "Invalid token"), one_user))
  /\ (forall created_at,
        get_my_quizzes created_at InvalidToken one_user
        = (Refused (reply 403 (Error "Invalid token")), one_user))
  /\ (forall completed_at,
        get_my_results completed_at InvalidToken one_user
        = (Refused (reply 403 (Error "Invalid token")), one_user)).
Proof.
  apply (refused_requests_touch_nothing InvalidToken
           (reply 403 (Error "Invalid token")) one_user).
  reflexivity.
Defined.

(** ** Register and Login, continued *)

(** X2. A Register body with a missing (falsy) field, or with a string
    password of fewer than six characters, is answered 400 before the
    store is consulted. *)
Theorem register_validation_precedes_storage :
  forall (B : Bcrypt) (body : register_body) (w : world),
    ~ well_formed_registration body ->
    (exists msg, post_register body w = (reply 400 (Error msg), w))
    /\ ((truthy (reg_username body) && truthy (reg_email body)
         && truthy (reg_password body))%bool = false ->
        post_register body w
        = (reply 400 (Error "All fields are required"), w)).
Proof.
  intros B body w H. unfold post_register.
  destruct (truthy (reg_username body)) eqn:Hu; cbn;
    [| split; [eexists |]; reflexivity].
  destruct (truthy (reg_email body)) eqn:He; cbn;
    [| split; [eexists |]; reflexivity].
  destruct (truthy (reg_password body)) eqn:Hp; cbn;
    [| split; [eexists |]; reflexivity].
  destruct (shorter_than_6 (reg_password body)) eqn:Hs.
  - split; [eexists; reflexivity | discriminate].
  - exfalso; apply H. repeat split; assumption.
Qed.

Lemma register_validation_precedes_storage_witness :
  (exists msg,
     @post_register toy_bcrypt
       {| reg_username := JStr "carol"; reg_email := JStr "c@example.org";
          reg_password := JStr "12345" |} one_user
     = (reply 400 (Error msg), one_user))
  /\ ((truthy (JStr "carol") && truthy (JStr "c@example.org")
       && truthy (JStr "12345"))%bool = false ->
      @post_register toy_bcrypt
        {| reg_username := JStr "carol"; reg_email := JStr "c@example.org";
           reg_password := JStr "12345" |} one_user
      = (reply 400 (Error "All fields are required"), one_user)).
Proof.
  apply (register_validation_precedes_storage toy_bcrypt
           {| reg_username := JStr "carol"; reg_email := JStr "c@example.org";
              reg_password := JStr "12345" |} one_user).
  intros (_ & _ & _ & H). vm_compute in H. discriminate.
Defined.

Lemma sql_eq_refl (v : sqlval) : is_null v = false -> sql_eq v v = true.
Proof.
  destruct v; cbn; intros H; [discriminate | apply Z.eqb_refl
                                         | apply String.eqb_refl].
Qed.

Lemma existsb_or_false {A : Type} (f g : A -> bool) (l : list A) :
  existsb (fun x => f x || g x)%bool l = false ->
  existsb f l = false /\ existsb g l = false.
Proof.
  induction l as [| x l IH]; cbn; [auto |].
  intros H. apply orb_false_iff in H as [Hx Hl].
  apply orb_false_iff in Hx as [Hf Hg].
  destruct (IH Hl) as [H1 H2]. now rewrite Hf, Hg, H1, H2.
Qed.

Lemma existsb_or_intro {A : Type} (f g : A -> bool) (l : list A) :
  existsb f l = false -> existsb g l = false ->
  existsb (fun x => f x || g x)%bool l = false.
Proof.
  induction l as [| x l IH]; cbn; [auto |].
  intros Hf Hg. apply orb_false_iff in Hf as [Hf1 Hf2].
  apply orb_false_iff in Hg as [Hg1 Hg2].
  now rewrite Hf1, Hg1, IH.
Qed.

Lemma post_register_accepted :
  forall (B : Bcrypt) (body : register_body) (w : world) (p : string),
    well_formed_registration body ->
    reg_password body = JStr p ->
    email_taken (db w) (reg_email body) = false ->
    username_taken (db w) (reg_username body) = false ->
    faults w = [] ->
    post_register body w
    = (reply 201
         (Session "User created successfully"
            {| userId := seq_users (db w) + 1;
               token_username := reg_username body |}
            (JNum (seq_users (db w) + 1))
            (reg_username body) (reg_email body)),
       {| db := insert_user (user_row_of B (db w) body p) (db w);
          faults := [] |}).
Proof.
  intros B body [s f] p (Hu & He & Hp & Hl) Hpw Het Hut Hf.
  cbn in Hf; subst f.
  unfold post_register, getUserByEmail, email_taken, username_taken in *.
  rewrite Hu, He, Hp, Hl; run.
  rewrite (find_none_existsb _ _ Het), Hpw.
  unfold createUser; run.
  rewrite (truthy_not_null _ Hu), (truthy_not_null _ He); cbn.
  rewrite (existsb_or_intro _ _ _ Hut Het).
  reflexivity.
Qed.

(** X3. A registration whose username, email and password are strings,
    with all three non-empty and a password of at least six UTF-16 code
    units, whose email and username no stored user has, met by no storage
    error, is answered 201 with a token for the new user id; exactly one
    user row is appended, and its password column holds the bcrypt
    hash. *)
Theorem register_creates_hashed_user :
  forall (B : Bcrypt) (body : register_body) (w : world) (u e p : string),
    reg_username body = JStr u ->
    reg_email body = JStr e ->
    reg_password body = JStr p ->
    well_formed_registration body ->
    email_taken (db w) (reg_email body) = false ->
    username_taken (db w) (reg_username body) = false ->
    faults w = [] ->
    post_register body w
    = (reply 201
         (Session "User created successfully"
            {| userId := seq_users (db w) + 1;
               token_username := JStr u |}
            (JNum (seq_users (db w) + 1)) (JStr u) (JStr e)),
       {| db := insert_user
                  {| users_id := seq_users (db w) + 1;
                     users_username := SText u;
                     users_email := SText e;
                     users_password := SText (bcrypt_hash p) |}
                  (db w);
          faults := [] |}).
Proof.
  intros B body w u e p Hu He Hpw Hwf Het Hut Hf.
  rewrite (post_register_accepted B body w p Hwf Hpw Het Hut Hf).
  unfold user_row_of. now rewrite Hu, He.
Qed.

Lemma register_creates_hashed_user_witness :
  @post_register toy_bcrypt carol_registration one_user
  = (reply 201
       (Session "User created successfully"
          {| userId := 2; token_username := JStr "carol" |}
          (JNum 2) (JStr "carol") (JStr "c@example.org")),
     {| db := insert_user
                {| users_id := 2;
                   users_username := SText "carol";
                   users_email := SText "c@example.org";
                   users_password :=
                     SText (@bcrypt_hash toy_bcrypt "tea-party") |}
                (db one_user);
        faults := [] |}).
Proof.
  apply (register_creates_hashed_user toy_bcrypt carol_registration one_user
           "carol" "c@example.org" "tea-party").
  - reflexivity.
  - reflexivity.
  - reflexivity.
  - repeat split; reflexivity.
  - reflexivity.
  - reflexivity.
  - reflexivity.
Defined.

Lemma existsb_false_forall {A : Type} (f : A -> bool) (l : list A) :
  existsb f l = false -> forall x, In x l -> f x = false.
Proof.
  induction l as [| y l IH]; cbn; [contradiction |].
  intros H x [<- | Hx]; apply orb_false_iff in H as [H1 H2]; auto.
Qed.

(** X4. After such a registration, a Login with the same email and
    password succeeds, provided bcrypt accepts a password for its own
    hash: the reply is 200 with a token for the user id the registration
    handed out, and the store is left as the registration made it. *)
Theorem login_after_register :
  forall (B : Bcrypt) (body : register_body) (w : world) (u e p : string),
    reg_username body = JStr u ->
    reg_email body = JStr e ->
    reg_password body = JStr p ->
    well_formed_registration body ->
    email_taken (db w) (reg_email body) = false ->
    username_taken (db w) (reg_username body) = false ->
    faults w = [] ->
    bcrypt_compare p (bcrypt_hash p) = true ->
    post_login (login_of body) (snd (post_register body w))
    = (reply 200
         (Session "Login successful"
            {| userId := seq_users (db w) + 1; token_username := JStr u |}
            (JNum (seq_users (db w) + 1)) (JStr u) (JStr e)),
       snd (post_register body w)).
Proof.
  intros B body w u e p Hus Hes Hpw Hwf Het Hut Hf Hc.
  rewrite (post_register_accepted B body w p Hwf Hpw Het Hut Hf).
  destruct Hwf as (Hu & He & Hp & Hl).
  unfold post_login, login_of, getUserByEmail; cbn [login_email login_password].
  rewrite He, Hp; run.
  rewrite (find_app_fresh _ _ (user_row_of B (db w) body p)).
  - cbn. rewrite Hpw, Hc, Hus, Hes. reflexivity.
  - apply existsb_false_forall. exact Het.
  - cbn. apply sql_eq_refl. now apply truthy_not_null.
Qed.

Lemma login_after_register_witness :
  @post_login toy_bcrypt (login_of carol_registration)
    (snd (@post_register toy_bcrypt carol_registration one_user))
  = (reply 200
       (Session "Login successful"
          {| userId := 2; token_username := JStr "carol" |}
          (JNum 2) (JStr "carol") (JStr "c@example.org")),
     snd (@post_register toy_bcrypt carol_registration one_user)).
Proof.
  apply (login_after_register toy_bcrypt carol_registration one_user
           "carol" "c@example.org" "tea-party").
  - reflexivity.
  - reflexivity.
  - reflexivity.
  - repeat split; reflexivity.
  - reflexivity.
  - reflexivity.
  - reflexivity.
  - reflexivity.
Defined.

(** ** Save-Quiz-Result, continued *)

(** X6. When the driver reports no error for the INSERT, Save-Quiz-Result
    either replies 200 with the id of exactly one appended row, which is
    recorded under the caller's own user id, or it replies with another
    status and leaves the store untouched. *)
Theorem save_result_effect_matches_reply :
  forall (a : authorization) (body : result_body) (w : world),
    hd false (faults w) = false ->
    (exists user row,
       a = Bearer user
       /\ fst (post_quiz_results a body w)
          = reply 200 (ResultSaved "Results saved successfully"
                         (seq_quiz_results (db w) + 1))
       /\ db (snd (post_quiz_results a body w)) = insert_result row (db w)
       /\ quiz_results_id row = seq_quiz_results (db w) + 1
       /\ quiz_results_user_id row = SInt (userId user))
    \/ (status (fst (post_quiz_results a body w)) <> 200
        /\ db (snd (post_quiz_results a body w)) = db w).
Proof.
  intros a body [s f] Hf.
  unfold post_quiz_results.
  destruct a as [| | user]; cbn [authenticateToken];
    try (right; split; [discriminate | reflexivity]).
  destruct (negb (truthy (b_quizId body)) || is_undefined (b_score body)
            || negb (truthy (b_totalQuestions body))
            || negb (truthy (b_timeTaken body)))%bool;
    [right; split; [discriminate | reflexivity] |].
  unfold saveResult; run.
  destruct f as [| [|] f]; cbn in *; try discriminate.
  all: match goal with
       | |- context [if ?c then _ else _] => destruct c
       end; cbn; try (right; split; [discriminate | reflexivity]).
  all: left; exists user; eexists; repeat split.
Qed.

Lemma save_result_effect_matches_reply_witness :
  (exists user row,
     Bearer ann = Bearer user
     /\ fst (post_quiz_results (Bearer ann)
               {| b_quizId := JNum 1; b_score := JNum 2;
                  b_totalQuestions := JNum 2; b_timeTaken := JNum 30;
                  b_answers := Some "[0,1]"%string |} ann_quiz)
        = reply 200 (ResultSaved "Results saved successfully"
                       (seq_quiz_results (db ann_quiz) + 1))
     /\ db (snd (post_quiz_results (Bearer ann)
                   {| b_quizId := JNum 1; b_score := JNum 2;
                      b_totalQuestions := JNum 2; b_timeTaken := JNum 30;
                      b_answers := Some "[0,1]"%string |} ann_quiz))
        = insert_result row (db ann_quiz)
     /\ quiz_results_id row = seq_quiz_results (db ann_quiz) + 1
     /\ quiz_results_user_id row = SInt (userId user))
  \/ (status (fst (post_quiz_results (Bearer ann)
                     {| b_quizId := JNum 1; b_score := JNum 2;
                        b_totalQuestions := JNum 2; b_timeTaken := JNum 30;
                        b_answers := Some "[0,1]"%string |} ann_quiz))
      <> 200
      /\ db (snd (post_quiz_results (Bearer ann)
                    {| b_quizId := JNum 1; b_score := JNum 2;
                       b_totalQuestions := JNum 2; b_timeTaken := JNum 30;
                       b_answers := Some "[0,1]"%string |} ann_quiz))
         = db ann_quiz).
Proof.
  apply (save_result_effect_matches_reply (Bearer ann)
           {| b_quizId := JNum 1; b_score := JNum 2;
              b_totalQuestions := JNum 2; b_timeTaken := JNum 30;
              b_answers := Some "[0,1]"%string |} ann_quiz).
  reflexivity.
Defined.

(** ** What the handlers can do to the store *)

Lemma writes_trans (s1 s2 s3 : store) :
  writes s1 s2 -> writes s2 s3 -> writes s1 s3.
Proof.
  intros H12 H23; induction H23 as [| s2 s3 s4 _ IH Hw]; [exact H12 |].
  eapply writes_more; [apply IH; exact H12 | exact Hw].
Qed.

Lemma writes_one (s s' : store) : write s s' -> writes s s'.
Proof. intros H. eapply writes_more; [apply writes_none | exact H]. Qed.

Lemma Reads_ret {A : Type} (a : A) : Reads (ret a).
Proof. intros w; reflexivity. Qed.

Lemma Reads_bind {A B : Type} (m : M A) (k : A -> M B) :
  Reads m -> (forall a, Reads (k a)) -> Reads (bind m k).
Proof.
  intros Hm Hk w. unfold bind. specialize (Hm w).
  destruct (m w) as [a w1]; cbn in *. now rewrite Hk.
Qed.

Lemma Reads_Writes {A : Type} (m : M A) : Reads m -> Writes m.
Proof. intros H w. rewrite H. apply writes_none. Qed.

Lemma Writes_ret {A : Type} (a : A) : Writes (ret a).
Proof. intros w; apply writes_none. Qed.

Lemma Writes_bind {A B : Type} (m : M A) (k : A -> M B) :
  Writes m -> (forall a, Writes (k a)) -> Writes (bind m k).
Proof.
  intros Hm Hk w. unfold bind. specialize (Hm w).
  destruct (m w) as [a w1]; cbn in *.
  eapply writes_trans; [exact Hm | apply Hk].
Qed.

Lemma Reads_statement_error : Reads statement_error.
Proof. intros [s [| b f]]; reflexivity. Qed.

Lemma Reads_get_store : Reads get_store.
Proof. intros w; reflexivity. Qed.

(** Walks through a computation built from [bind], [ret], conditionals
    and case distinctions. *)
Ltac walk reads_bind reads_ret leaf :=
  cbv zeta;
  repeat first
    [ leaf
    | apply reads_ret
    | apply reads_bind; [| intros ?]
    | match goal with
      | |- _ (if ?c then _ else _) => destruct c
      | |- _ (match ?x with _ => _ end) => destruct x
      end ].

Ltac reads :=
  walk (@Reads_bind) (@Reads_ret)
       ltac:(first [apply Reads_statement_error | apply Reads_get_store]).

Lemma Reads_getUserByEmail (email : jsval) : Reads (getUserByEmail email).
Proof. unfold getUserByEmail. reads. Qed.

Lemma Reads_getUserById (id : jsval) : Reads (getUserById id).
Proof. unfold getUserById. reads. Qed.

Lemma Reads_getQuizById (id : jsval) : Reads (getQuizById id).
Proof. unfold getQuizById. reads. Qed.

Lemma Reads_getQuizzesByUser (created_at : Z -> sqlval) (userId : jsval) :
  Reads (getQuizzesByUser created_at userId).
Proof. unfold getQuizzesByUser. reads. Qed.

Lemma Reads_getResultsByUser (completed_at : Z -> sqlval) (userId : jsval) :
  Reads (getResultsByUser completed_at userId).
Proof. unfold getResultsByUser. reads. Qed.

Ltac reads_db :=
  walk (@Reads_bind) (@Reads_ret)
       ltac:(first [ apply Reads_getUserByEmail | apply Reads_getUserById
                   | apply Reads_getQuizById | apply Reads_getQuizzesByUser
                   | apply Reads_getResultsByUser ]).

Lemma Reads_post_login (B : Bcrypt) (body : login_body) :
  Reads (post_login body).
Proof. unfold post_login. reads_db. Qed.

Lemma Reads_get_quiz (a : authorization) (id : option Z) :
  Reads (get_quiz a id).
Proof. unfold get_quiz. reads_db. Qed.

Lemma Reads_get_my_quizzes (created_at : Z -> sqlval) (a : authorization) :
  Reads (get_my_quizzes created_at a).
Proof. unfold get_my_quizzes. reads_db. Qed.

Lemma Reads_get_my_results (completed_at : Z -> sqlval) (a : authorization) :
  Reads (get_my_results completed_at a).
Proof. unfold get_my_results. reads_db. Qed.

(** X5. Login, Get-Quiz, List-My-Quizzes and List-My-Results never change
    the store, whatever the request and whatever the driver reports. *)
Theorem reading_handlers_leave_store :
  forall (B : Bcrypt) (w : world),
    (forall body, db (snd (post_login body w)) = db w)
    /\ (forall a id, db (snd (get_quiz a id w)) = db w)
    /\ (forall created_at a,
          db (snd (get_my_quizzes created_at a w)) = db w)
    /\ (forall completed_at a,
          db (snd (get_my_results completed_at a w)) = db w).
Proof.
  intros B w. repeat split; intros.
  - apply Reads_post_login.
  - apply Reads_get_quiz.
  - apply Reads_get_my_quizzes.
  - apply Reads_get_my_results.
Qed.

Lemma Writes_createUser (u e p : jsval) : Writes (createUser u e p).
Proof.
  intros [s f]; unfold createUser; run.
  destruct f as [| [|] f]; cbn; try apply writes_none.
  all: match goal with
       | |- context [if ?c then _ else _] => destruct c eqn:E
       end; cbn; try apply writes_none.
  all: apply writes_one, write_user; [reflexivity |].
  all: apply orb_false_iff in E as [_ E]; exact E.
Qed.

Lemma Writes_createQuiz (q : quizData) : Writes (createQuiz q).
Proof.
  intros [s f]; unfold createQuiz; run.
  destruct f as [| [|] f]; cbn; try apply writes_none.
  all: match goal with
       | |- context [if ?c then _ else _] => destruct c
       end; cbn; try apply writes_none.
  all: apply writes_one, write_quiz; reflexivity.
Qed.

Lemma Writes_addQuestion (q : questionData) : Writes (addQuestion q).
Proof.
  intros [s f]; unfold addQuestion; run.
  destruct f as [| [|] f]; cbn; try apply writes_none.
  all: match goal with
       | |- context [if ?c then _ else _] => destruct c
       end; cbn; try apply writes_none.
  all: apply writes_one, write_question; reflexivity.
Qed.

Lemma Writes_saveResult (r : resultData) : Writes (saveResult r).
Proof.
  intros [s f]; unfold saveResult; run.
  destruct f as [| [|] f]; cbn; try apply writes_none.
  all: match goal with
       | |- context [if ?c then _ else _] => destruct c
       end; cbn; try apply writes_none.
  all: apply writes_one, write_result; reflexivity.
Qed.

Lemma Writes_deleteQuiz (quizId userId : jsval) :
  Writes (deleteQuiz quizId userId).
Proof.
  intros [s f]; unfold deleteQuiz; run.
  destruct f as [| [|] [| [|] f]]; cbn; try apply writes_none.
  all: try (apply writes_one; apply write_drop_questions).
  all: eapply writes_more;
    [apply writes_one; apply write_drop_questions |].
  all: match goal with
       | |- write ?s0 _ =>
           apply (write_drop_quizzes s0
                    (fun r => negb (sql_eq (SInt (quizzes_id r))
                                           (bind_param quizId)
                                    && sql_eq (quizzes_user_id r)
                                              (bind_param userId))))
       end.
Qed.

Lemma Writes_add_questions (picks : list nat) (quizId : Z)
  (qs : list question) :
  Writes (add_questions picks quizId qs).
Proof.
  intros w. unfold add_questions, settle.
  apply (foldM_preserves (fun w' => writes (db w) (db w')));
    [| apply writes_none].
  intros st q w1 H. rewrite question_settles_world.
  eapply writes_trans; [exact H | apply Writes_addQuestion].
Qed.

Ltac writes_db :=
  walk (@Writes_bind) (@Writes_ret)
       ltac:(first [ apply Reads_Writes, Reads_getUserByEmail
                   | apply Writes_createUser | apply Writes_createQuiz
                   | apply Writes_add_questions | apply Writes_saveResult
                   | apply Writes_deleteQuiz ]).

Lemma Writes_post_register (B : Bcrypt) (body : register_body) :
  Writes (post_register body).
Proof. unfold post_register. writes_db. Qed.

Lemma Writes_post_quizzes (picks : list nat) (a : authorization)
  (body : quiz_body) :
  Writes (post_quizzes picks a body).
Proof. unfold post_quizzes. writes_db. Qed.

Lemma Writes_delete_quiz (a : authorization) (id : option Z) :
  Writes (delete_quiz a id).
Proof. unfold delete_quiz. writes_db. Qed.

Lemma Writes_post_quiz_results (a : authorization) (body : result_body) :
  Writes (post_quiz_results a body).
Proof. unfold post_quiz_results. writes_db. Qed.

(** Every request changes the store by such writes only. *)
Lemma serve_writes (B : Bcrypt) (r : request) (w : world) :
  writes (db w) (db (serve B r w)).
Proof.
  destruct r; cbn [serve].
  - apply Writes_post_register.
  - apply Reads_Writes, Reads_post_login.
  - apply Writes_post_quizzes.
  - apply Reads_Writes, Reads_get_quiz.
  - apply Writes_delete_quiz.
  - apply Writes_post_quiz_results.
  - apply Reads_Writes, Reads_get_my_quizzes.
  - apply Reads_Writes, Reads_get_my_results.
Qed.

Lemma serve_all_writes (B : Bcrypt) (rs : list request) :
  forall w, writes (db w) (db (serve_all B rs w)).
Proof.
  unfold serve_all.
  induction rs as [| r rs IH]; intros w; cbn; [apply writes_none |].
  eapply writes_trans; [apply serve_writes | apply IH].
Qed.

(** ** Invariants of the store *)


Lemma ascending_bounds (hi : Z) (l : list Z) :
  forall lo, ascending lo hi l = true ->
             lo <= hi /\ Forall (fun x => lo < x <= hi) l.
Proof.
  induction l as [| x l IH]; intros lo H; cbn in H.
  - apply Z.leb_le in H. split; [exact H | constructor].
  - apply andb_true_iff in H as [H1 H2]. apply Z.ltb_lt in H1.
    destruct (IH x H2) as [Hx Hl]. split; [lia |].
    constructor; [lia |].
    eapply Forall_impl; [| exact Hl]. cbn; intros; lia.
Qed.





Lemma distinct_users_snoc (row : user_row) (l : list user_row) :
  distinct_users l = true ->
  existsb (clashes row) l = false ->
  distinct_users (l ++ [row]) = true.
Proof.
  induction l as [| r l IH]; cbn; intros Hd Hc; [reflexivity |].
  apply andb_true_iff in Hd as [H1 H2].
  apply orb_false_iff in Hc as [H3 H4].
  rewrite existsb_app; cbn. rewrite H3, orb_false_r.
  apply negb_true_iff in H1. rewrite H1; cbn. now apply IH.
Qed.

Lemma write_distinct_users (s s' : store) :
  write s s' ->
  distinct_users (users s) = true -> distinct_users (users s') = true.
Proof.
  intros Hw H.
  destruct Hw as [s r _ Hc | s r _ | s r _ | s r _ | s f | s f]; cbn;
    try exact H.
  now apply distinct_users_snoc.
Qed.

Lemma writes_distinct_users (s s' : store) :
  writes s s' ->
  distinct_users (users s) = true -> distinct_users (users s') = true.
Proof.
  induction 1 as [| s1 s2 s3 _ IH Hw]; intros H; [exact H |].
  apply (write_distinct_users s2 s3 Hw), IH, H.
Qed.


(** X8. Usernames and emails stay unique: from a store in which no two
    users share a username or an email, no sequence of requests, under
    any storage errors, reaches a store in which two do. *)
Theorem usernames_and_emails_stay_unique :
  forall (B : Bcrypt) (rs : list request) (w : world),
    distinct_users (users (db w)) = true ->
    distinct_users (users empty_store) = true
    /\ distinct_users (users (db (serve_all B rs w))) = true.
Proof.
  intros B rs w H. split; [reflexivity |].
  apply (writes_distinct_users (db w)); [apply serve_all_writes | exact H].
Qed.

Lemma serve_consistent (B : Bcrypt) (r : request) (w : world) :
  consistent (db w) = true -> consistent (db (serve B r w)) = true.
Proof.
  intros H.
  destruct r; cbn [serve];
    try (rewrite ?Reads_post_login, ?Reads_get_quiz, ?Reads_get_my_quizzes,
           ?Reads_get_my_results; exact H).
  - apply (same_quizzes_consistent w);
      [apply post_register_same_quizzes | exact H].
  - now apply post_quizzes_consistent.
  - now apply delete_quiz_consistent.
  - apply (same_quizzes_consistent w);
      [apply post_quiz_results_same_quizzes | exact H].
Qed.

(** X9. No dangling forward references: from a store in which every quiz
    id in use, as a quiz row's id or as a question row's quiz_id, is at
    most the quiz counter, every sequence of requests leads to such a
    store again; so a newly created quiz never inherits question rows. *)
Theorem quiz_references_stay_bounded :
  forall (B : Bcrypt) (rs : list request) (w : world),
    consistent (db w) = true ->
    consistent empty_store = true
    /\ consistent (db (serve_all B rs w)) = true.
Proof.
  intros B rs w H. split; [reflexivity |].
  revert w H. unfold serve_all.
  induction rs as [| r rs IH]; intros w H; cbn; [exact H |].
  apply IH. now apply serve_consistent.
Qed.

(** ** Create-Quiz: the reply and the store agree *)

Lemma createQuiz_inv (q : quizData) (w : world) :
  (fst (createQuiz q w) = DbErr /\ db (snd (createQuiz q w)) = db w)
  \/ (fst (createQuiz q w) = DbOk (seq_quizzes (db w) + 1)
      /\ db (snd (createQuiz q w))
         = insert_quiz
             {| quizzes_id := seq_quizzes (db w) + 1;
                quizzes_title := bind_param (title q);
                quizzes_description := bind_param (description q);
                quizzes_time_limit := bind_param (time_limit q);
                quizzes_user_id := bind_param (user_id q) |}
             (db w)).
Proof.
  destruct w as [s f]; unfold createQuiz; run.
  destruct f as [| [|] f]; cbn; auto.
  all: match goal with
       | |- context [if ?c then _ else _] => destruct c
       end; cbn; auto.
Qed.

Lemma addQuestion_count (q : questionData) (w : world) :
  (fst (addQuestion q w) = DbOk tt
   /\ List.length (questions (db (snd (addQuestion q w))))
      = S (List.length (questions (db w))))
  \/ (fst (addQuestion q w) = DbErr
      /\ questions (db (snd (addQuestion q w))) = questions (db w)).
Proof.
  destruct w as [s f]; unfold addQuestion; run.
  destruct f as [| [|] f]; cbn; auto.
  all: match goal with
       | |- context [if ?c then _ else _] => destruct c
       end; cbn; auto.
  all: left; split; [reflexivity |]; rewrite length_app; cbn; lia.
Qed.

(** The number of question rows grows by one per successful write: by
    the number of writes exactly when no callback saw an error. *)
Lemma run_count (total : nat) (quizId : Z) (order : list questionData) :
  forall (st : progress) (w : world),
    let r := foldM (question_settles total quizId) st order w in
    (hasError (fst r) = false ->
     List.length (questions (db (snd r)))
     = (List.length (questions (db w)) + List.length order)%nat)
    /\ (hasError (fst r) = true -> hasError st = false ->
        (List.length (questions (db (snd r)))
         < List.length (questions (db w)) + List.length order)%nat)
    /\ (List.length (questions (db (snd r)))
        <= List.length (questions (db w)) + List.length order)%nat.
Proof.
  induction order as [| q order IH]; intros st w; cbn.
  - repeat split; intros; try lia. congruence.
  - unfold bind.
    pose proof (question_settles_progress total quizId st q w) as Hst.
    pose proof (question_settles_world total quizId st q w) as Hw.
    destruct (question_settles total quizId st q w) as [st1 w1].
    cbn [fst snd] in Hst, Hw. subst w1.
    destruct (IH st1 (snd (addQuestion q w))) as (IH1 & IH2 & IH3).
    pose proof (run_from_progress total quizId order st1
                  (snd (addQuestion q w))) as (_ & Hsticky & _).
    cbn zeta in *.
    set (final := foldM (question_settles total quizId) st1 order
                    (snd (addQuestion q w))) in *.
    assert (Hst1 : hasError st1
                   = (is_err (fst (addQuestion q w)) || hasError st)%bool).
    { rewrite Hst; cbn. now destruct (is_err _). }
    destruct (addQuestion_count q w) as [[Hok Hlen] | [Herr Hsame]].
    + rewrite Hok in Hst1; cbn in Hst1.
      repeat split.
      * intros Hf. rewrite (IH1 Hf), Hlen. lia.
      * intros Hf Hs. rewrite Hst1 in IH2. specialize (IH2 Hf Hs).
        rewrite Hlen in IH2. lia.
      * rewrite Hlen in IH3. lia.
    + rewrite Herr in Hst1; cbn in Hst1.
      repeat split.
      * intros Hf. rewrite Hsticky in Hf; [discriminate | exact Hst1].
      * intros _ _. rewrite Hsame in IH3. lia.
      * rewrite Hsame in IH3. lia.
Qed.

Ltac untouched :=
  right; split; [reflexivity |];
  eexists; split;
  [reflexivity
  | split; [cbn; discriminate
           | unfold failed_reply, uncaught, reply; discriminate]].

(** X10. For a body whose questions are absent or an array of question
    objects, and when the driver reports no error for the quiz INSERT,
    Create-Quiz writes exactly one reply, whatever happens to the
    question writes, and the reply tells what the store holds.  Either a
    quiz row owned by the caller was appended under the next quiz id, and
    then the reply is 201 with that id and as many question rows were
    added as questions were submitted, or the reply is 500 "Some
    questions failed to save" and fewer were added; or the store is
    exactly as before and the reply is neither of these. *)
Theorem create_quiz_reply_matches_store :
  forall (picks : list nat) (a : authorization) (body : quiz_body)
         (w : world),
    hd false (faults w) = false ->
    let replies := fst (post_quizzes picks a body w) in
    let s' := db (snd (post_quizzes picks a body w)) in
    (exists user qs row,
       a = Bearer user
       /\ b_questions body = Some qs
       /\ quizzes s' = quizzes (db w) ++ [row]
       /\ quizzes_id row = seq_quizzes (db w) + 1
       /\ quizzes_user_id row = SInt (userId user)
       /\ ((replies = [created_reply (seq_quizzes (db w) + 1)]
            /\ List.length (questions s')
               = (List.length (questions (db w)) + List.length qs)%nat)
           \/ (replies = [failed_reply]
               /\ (List.length (questions s')
                   < List.length (questions (db w)) + List.length qs)%nat)))
    \/ (s' = db w
        /\ exists r, replies = [r] /\ status r <> 201 /\ r <> failed_reply).
Proof.
  intros picks a body w _; cbv zeta.
  unfold post_quizzes.
  destruct (authenticateToken a) as [r | user] eqn:Ha.
  { right; split; [reflexivity |]. exists r; split; [reflexivity |].
    destruct a; cbn in Ha; inversion Ha;
      (split; [cbn; discriminate | unfold failed_reply, reply; discriminate]). }
  assert (Hbearer : a = Bearer user)
    by (destruct a; cbn in Ha; inversion Ha; reflexivity).
  destruct (b_title body) as [| | | b | n | t];
    try (destruct (truthy _); untouched).
  destruct ((t =? "")%string || (trim t =? "")%string)%bool;
    [untouched |].
  destruct (b_questions body) as [[| q qs] |] eqn:Hqs;
    try untouched.
  match goal with
  | |- context [match ?d with Some _ => _ | None => _ end] =>
      destruct d as [d' |];
        [| untouched]
  end.
  unfold bind.
  match goal with
  | |- context [createQuiz ?qd w] =>
      destruct (createQuiz_inv qd w) as [[He Hdb] | [Hok Hdb]];
      destruct (createQuiz qd w) as [cr w1]
  end; cbn [fst snd] in *; subst cr.
  { right; split; [exact Hdb |].
    eexists; split; [reflexivity | split; [cbn; discriminate |]].
    unfold failed_reply, reply; discriminate. }
  left. exists user, (q :: qs).
  eexists; split; [exact Hbearer |]. split; [reflexivity |].
  set (quizId := seq_quizzes (db w) + 1) in *.
  unfold add_questions.
  set (total := List.length (q :: qs)).
  set (order := completions picks (issued quizId (q :: qs))).
  assert (Hlen : List.length order = total)
    by apply completions_issued_length.
  pose proof (settle_quizzes total quizId order w1) as [Hqz _].
  pose proof (run_from_progress total quizId order no_progress w1)
    as (_ & _ & _ & Hsent).
  pose proof (run_count total quizId order no_progress w1)
    as (Hc1 & Hc2 & _).
  fold (settle total quizId order w1) in Hsent, Hc1, Hc2.
  destruct (settle total quizId order w1) as [st w2].
  cbn [fst snd] in *. unfold ret; cbn [fst snd].
  rewrite Hqz, Hdb; cbn [quizzes insert_quiz questions].
  split; [reflexivity |]. split; [reflexivity |]. split; [reflexivity |].
  rewrite Hsent; [| cbn; lia | exact Hlen | reflexivity].
  rewrite Hdb in Hc1, Hc2; cbn [questions insert_quiz] in Hc1, Hc2.
  rewrite Hlen in Hc1, Hc2.
  destruct (hasError st).
  - right. split; [reflexivity | now apply Hc2].
  - left. split; [reflexivity | now apply Hc1].
Qed.

Lemma create_quiz_reply_matches_store_witness :
  (exists user qs row,
     Bearer ann = Bearer user
     /\ b_questions textless_body = Some qs
     /\ quizzes (db (snd (post_quizzes [1%nat] (Bearer ann) textless_body
                            fresh)))
        = quizzes (db fresh) ++ [row]
     /\ quizzes_id row = seq_quizzes (db fresh) + 1
     /\ quizzes_user_id row = SInt (userId user)
     /\ ((fst (post_quizzes [1%nat] (Bearer ann) textless_body fresh)
          = [created_reply (seq_quizzes (db fresh) + 1)]
          /\ List.length
               (questions (db (snd (post_quizzes [1%nat] (Bearer ann)
                                      textless_body fresh))))
             = (List.length (questions (db fresh)) + List.length qs)%nat)
         \/ (fst (post_quizzes [1%nat] (Bearer ann) textless_body fresh)
             = [failed_reply]
             /\ (List.length
                   (questions (db (snd (post_quizzes [1%nat] (Bearer ann)
                                          textless_body fresh))))
                 < List.length (questions (db fresh)) + List.length qs)%nat)))
  \/ (db (snd (post_quizzes [1%nat] (Bearer ann) textless_body fresh))
      = db fresh
      /\ exists r,
           fst (post_quizzes [1%nat] (Bearer ann) textless_body fresh) = [r]
           /\ status r <> 201 /\ r <> failed_reply).
Proof.
  apply (create_quiz_reply_matches_store [1%nat] (Bearer ann) textless_body
           fresh).
  reflexivity.
Defined.

(** X11. Create-Quiz validation: a title that is empty or consists of
    white space only is answered 400 "Quiz title is required"; with a
    proper title, a missing or empty question list is answered 400 "At
    least one question is required". In both cases nothing is stored. *)
Theorem create_quiz_validation :
  forall (picks : list nat) (user : token) (body : quiz_body) (w : world)
         (t : string),
    b_title body = JStr t ->
    (trim t = ""%string ->
     post_quizzes picks (Bearer user) body w
     = ([reply 400 (Error "Quiz title is required")], w))
    /\ (trim t <> ""%string ->
        b_questions body = None \/ b_questions body = Some [] ->
        post_quizzes picks (Bearer user) body w
        = ([reply 400 (Error "At least one question is required")], w)).
Proof.
  intros picks user body w t Ht. unfold post_quizzes; cbn. rewrite Ht.
  split.
  - intros ->. cbn. now rewrite orb_true_r.
  - intros Hne Hq.
    assert (Hte : (t =? "")%string = false).
    { destruct (String.eqb_spec t "");
        [subst; now rewrite trim_empty in Hne | reflexivity]. }
    assert (Htr : (trim t =? "")%string = false)
      by now destruct (String.eqb_spec (trim t) "").
    rewrite Hte, Htr; cbn. destruct Hq as [-> | ->]; reflexivity.
Qed.

Lemma create_quiz_validation_witness :
  post_quizzes [] (Bearer ann)
    {| b_title := JStr blank_title; b_description := JUndefined;
       b_timeLimit := JUndefined; b_questions := Some [] |} fresh
  = ([reply 400 (Error "Quiz title is required")], fresh)
  /\ post_quizzes [] (Bearer ann)
       {| b_title := JStr "Capitals"; b_description := JUndefined;
          b_timeLimit := JUndefined; b_questions := Some [] |} fresh
     = ([reply 400 (Error "At least one question is required")], fresh).
Proof.
  split.
  - apply (create_quiz_validation [] ann
             {| b_title := JStr blank_title; b_description := JUndefined;
                b_timeLimit := JUndefined; b_questions := Some [] |}
             fresh blank_title eq_refl).
    reflexivity.
  - apply (create_quiz_validation [] ann
             {| b_title := JStr "Capitals"; b_description := JUndefined;
                b_timeLimit := JUndefined; b_questions := Some [] |}
             fresh "Capitals" eq_refl).
    + vm_compute; discriminate.
    + right; reflexivity.
Defined.

(** ** Delete-Quiz, continued *)

Lemma ascending_unique {A : Type} (key : A -> Z) (hi : Z) (l : list A) :
  forall lo,
    ascending lo hi (map key l) = true ->
    forall x y, In x l -> In y l -> key x = key y -> x = y.
Proof.
  induction l as [| a l IH]; intros lo H x y Hx Hy Hk; [contradiction |].
  cbn in H. apply andb_true_iff in H as [_ H].
  pose proof (ascending_bounds hi (map key l) (key a) H) as [_ Hb].
  rewrite Forall_forall in Hb.
  destruct Hx as [<- | Hx], Hy as [<- | Hy].
  - reflexivity.
  - specialize (Hb (key y) (in_map key l y Hy)). lia.
  - specialize (Hb (key x) (in_map key l x Hx)). lia.
  - exact (IH (key a) H x y Hx Hy Hk).
Qed.

Lemma keyed_quiz_unique (s : store) (r r' : quiz_row) :
  keyed s = true -> In r (quizzes s) -> In r' (quizzes s) ->
  quizzes_id r = quizzes_id r' -> r = r'.
Proof.
  intros H. unfold keyed in H.
  repeat (apply andb_true_iff in H as [H ?]).
  now apply (ascending_unique quizzes_id (seq_quizzes s) (quizzes s) 0).
Qed.

Lemma filter_length_lt {A : Type} (f : A -> bool) (l : list A) (x : A) :
  In x l -> f x = false ->
  (List.length (filter f l) < List.length l)%nat.
Proof.
  induction l as [| y l IH]; cbn; [contradiction |].
  intros [-> | Hx] Hf.
  - rewrite Hf. pose proof (filter_length_le f l). lia.
  - specialize (IH Hx Hf). destruct (f y); cbn; lia.
Qed.

Lemma get_quiz_not_found (reader : token) (id : option Z) (w : world) :
  faults w = [] ->
  find (fun r => sql_eq (SInt (quizzes_id r)) (bind_param (parseInt id)))
       (quizzes (db w)) = None ->
  get_quiz (Bearer reader) id w = (reply 404 (Error "Quiz not found"), w).
Proof.
  destruct w as [s f]; cbn; intros -> Hfind.
  unfold get_quiz, getQuizById; run. now rewrite Hfind.
Qed.

Lemma delete_quiz_by_owner (user : token) (n : Z) (w : world)
  (row : quiz_row) :
  faults w = [] ->
  keyed (db w) = true ->
  In row (quizzes (db w)) ->
  quizzes_id row = n ->
  quizzes_user_id row = SInt (userId user) ->
  delete_quiz (Bearer user) (Some n) w
  = (reply 200 (Message "Quiz deleted successfully"),
     {| db := set_quizzes
                (filter (fun r => negb (quizzes_id r =? n))
                        (quizzes (db w)))
                (set_questions
                   (filter (fun r => negb (sql_eq (questions_quiz_id r)
                                                  (SInt n)))
                           (questions (db w))) (db w));
        faults := [] |}).
Proof.
  destruct w as [s f]; cbn [db faults].
  intros Hf Hk Hin Hid Hown; subst f.
  assert (Hkept :
    filter (fun r => negb (sql_eq (SInt (quizzes_id r)) (SInt n)
                           && sql_eq (quizzes_user_id r)
                                     (SInt (userId user))))
           (quizzes s)
    = filter (fun r => negb (quizzes_id r =? n)) (quizzes s)).
  { apply filter_ext_in. intros r Hr. cbn.
    destruct (Z.eqb_spec (quizzes_id r) n) as [E |]; [| reflexivity].
    rewrite (keyed_quiz_unique s r row Hk Hr Hin) by congruence.
    rewrite Hown; cbn. now rewrite Z.eqb_refl. }
  assert (Hlt :
    (List.length (filter (fun r => negb (Z.eqb (quizzes_id r) n))
                         (quizzes s))
     < List.length (quizzes s))%nat).
  { apply (filter_length_lt _ _ row Hin). now rewrite Hid, Z.eqb_refl. }
  unfold delete_quiz, deleteQuiz.
  unfold bind, ret, get_store, put_store, statement_error; cbn.
  change (fun r : quiz_row =>
            negb ((quizzes_id r =? n)
                  && sql_eq (quizzes_user_id r) (SInt (userId user))))
    with (fun r : quiz_row =>
            negb (sql_eq (SInt (quizzes_id r)) (SInt n)
                  && sql_eq (quizzes_user_id r) (SInt (userId user)))).
  rewrite Hkept.
  destruct (Z.eqb_spec
              (Z.of_nat (List.length (quizzes s))
               - Z.of_nat (List.length
                             (filter (fun r => negb (quizzes_id r =? n))
                                     (quizzes s)))) 0) as [E |]; [lia |].
  reflexivity.
Qed.

(** X12. In a keyed store without storage errors, the owner's Delete-Quiz
    is answered 200; afterwards the quiz rows are those of the other
    quizzes, the question rows are those of the other quizzes, and a
    Get-Quiz for the deleted id by anyone is answered 404. *)
Theorem owner_delete_removes_quiz :
  forall (user : token) (n : Z) (w : world) (row : quiz_row),
    faults w = [] ->
    keyed (db w) = true ->
    In row (quizzes (db w)) ->
    quizzes_id row = n ->
    quizzes_user_id row = SInt (userId user) ->
    let w' := snd (delete_quiz (Bearer user) (Some n) w) in
    fst (delete_quiz (Bearer user) (Some n) w)
    = reply 200 (Message "Quiz deleted successfully")
    /\ quizzes (db w')
       = filter (fun r => negb (quizzes_id r =? n)) (quizzes (db w))
    /\ questions (db w')
       = filter (fun r => negb (sql_eq (questions_quiz_id r) (SInt n)))
                (questions (db w))
    /\ (forall reader,
          get_quiz (Bearer reader) (Some n) w'
          = (reply 404 (Error "Quiz not found"), w')).
Proof.
  intros user n w row Hf Hk Hin Hid Hown.
  cbv zeta. rewrite (delete_quiz_by_owner user n w row Hf Hk Hin Hid Hown).
  cbn [fst snd db quizzes questions set_quizzes set_questions].
  repeat split.
  intros reader. apply get_quiz_not_found; [reflexivity |].
  cbn [db quizzes set_quizzes].
  apply find_none_existsb.
  destruct (existsb _ _) eqn:Ex; [| reflexivity].
  apply existsb_exists in Ex as (r & Hr & Heq).
  apply filter_In in Hr as [_ Hr]. cbn in Heq. rewrite Heq in Hr.
  discriminate.
Qed.

Lemma deleteQuiz_db (quizId userId : jsval) (w : world) :
  let dropped :=
    set_questions
      (filter (fun r => negb (sql_eq (questions_quiz_id r)
                                     (bind_param quizId)))
              (questions (db w))) (db w) in
  db (snd (deleteQuiz quizId userId w)) = db w
  \/ db (snd (deleteQuiz quizId userId w)) = dropped
  \/ db (snd (deleteQuiz quizId userId w))
     = set_quizzes
         (filter (fun r => negb (sql_eq (SInt (quizzes_id r))
                                        (bind_param quizId)
                                 && sql_eq (quizzes_user_id r)
                                           (bind_param userId)))
                 (quizzes (db w))) dropped.
Proof.
  destruct w as [s f]; unfold deleteQuiz; run.
  destruct f as [| [|] [| [|] f]]; cbn; auto.
Qed.

Lemma delete_quiz_db (a : authorization) (id : option Z) (w : world) :
  db (snd (delete_quiz a id w)) = db w
  \/ exists userId, db (snd (delete_quiz a id w))
                    = db (snd (deleteQuiz (parseInt id) userId w)).
Proof.
  unfold delete_quiz.
  destruct (authenticateToken a) as [r | user]; [now left |].
  right. exists (JNum (userId user)). unfold bind.
  destruct (deleteQuiz _ _ w) as [[| n] w1]; [reflexivity |].
  now destruct (n =? 0).
Qed.

(** X13. Delete-Quiz is confined to one quiz: whoever asks and whatever
    the driver reports, it leaves the users and the results alone, adds
    no row, and removes neither a quiz row with another id nor a question
    row of another quiz. *)
Theorem delete_touches_one_quiz_only :
  forall (a : authorization) (id : option Z) (w : world),
    let s' := db (snd (delete_quiz a id w)) in
    users s' = users (db w)
    /\ quiz_results s' = quiz_results (db w)
    /\ (forall r, In r (quizzes s') -> In r (quizzes (db w)))
    /\ (forall r, In r (questions s') -> In r (questions (db w)))
    /\ (forall r, In r (quizzes (db w)) -> id <> Some (quizzes_id r) ->
                  In r (quizzes s'))
    /\ (forall r, In r (questions (db w)) ->
                  sql_eq (questions_quiz_id r) (bind_param (parseInt id))
                  = false ->
                  In r (questions s')).
Proof.
  intros a id w; cbv zeta.
  assert (Hother : forall r, id <> Some (quizzes_id r) ->
            sql_eq (SInt (quizzes_id r)) (bind_param (parseInt id)) = false).
  { intros r Hne. destruct id as [n |]; cbn; [| reflexivity].
    apply Z.eqb_neq. congruence. }
  destruct (delete_quiz_db a id w) as [-> | [userId ->]];
    [repeat split; auto |].
  destruct (deleteQuiz_db (parseInt id) userId w) as [-> | [-> | ->]];
    [repeat split; auto | |].
  - cbn [users quiz_results quizzes questions set_quizzes set_questions].
    repeat split; auto.
    + intros r Hr. now apply filter_In in Hr.
    + intros r Hr Hne. apply filter_In. now rewrite Hne.
  - cbn [users quiz_results quizzes questions set_quizzes set_questions].
    repeat split.
    + intros r Hr. now apply filter_In in Hr.
    + intros r Hr. now apply filter_In in Hr.
    + intros r Hr Hne. apply filter_In. split; [exact Hr |].
      now rewrite (Hother r Hne).
    + intros r Hr Hne. apply filter_In. now rewrite Hne.
Qed.

(** ** ORDER BY, in general *)

Lemma insert_by_perm {A : Type} (le : A -> A -> bool) (x : A) (l : list A) :
  Permutation (insert_by le x l) (x :: l).
Proof.
  induction l as [| y l IH]; cbn; [apply Permutation_refl |].
  destruct (le x y); [apply Permutation_refl |].
  apply perm_trans with (y :: x :: l); [now apply perm_skip |].
  apply perm_swap.
Qed.

Lemma sort_by_perm {A : Type} (le : A -> A -> bool) (l : list A) :
  Permutation (sort_by le l) l.
Proof.
  induction l as [| x l IH]; cbn; [apply perm_nil |].
  fold (sort_by le l).
  apply perm_trans with (x :: sort_by le l);
    [apply insert_by_perm | now apply perm_skip].
Qed.

Lemma insert_by_sorted {A : Type} (le : A -> A -> bool) :
  (forall a b, le a b = true \/ le b a = true) ->
  forall x l,
    Sorted (fun a b => le a b = true) l ->
    Sorted (fun a b => le a b = true) (insert_by le x l).
Proof.
  intros Htot x l; induction l as [| y l IH]; intros Hs; cbn.
  - repeat constructor.
  - destruct (le x y) eqn:E.
    + constructor; [exact Hs | now constructor].
    + apply Sorted_inv in Hs as [Hs Hhd].
      constructor; [now apply IH |].
      destruct l as [| z l]; cbn.
      * constructor. destruct (Htot x y); congruence.
      * destruct (le x z); constructor.
        -- destruct (Htot x y); congruence.
        -- now apply HdRel_inv in Hhd.
Qed.

Lemma sort_by_sorted {A : Type} (le : A -> A -> bool) :
  (forall a b, le a b = true \/ le b a = true) ->
  forall l, Sorted (fun a b => le a b = true) (sort_by le l).
Proof.
  intros Htot l; induction l as [| x l IH]; cbn; [constructor |].
  now apply insert_by_sorted.
Qed.

Lemma sql_le_total (a b : sqlval) : sql_le a b = true \/ sql_le b a = true.
Proof.
  destruct a as [| x | x], b as [| y | y]; cbn; auto.
  - destruct (Z.leb_spec x y); [now left | right].
    apply Z.leb_le. lia.
  - apply String.leb_total.
Qed.

(** ** Get-Quiz, in general *)

Lemma getQuizById_inv (id : jsval) (w : world) (view : quiz_view) :
  fst (getQuizById id w) = DbOk (Some view) ->
  find (fun r => sql_eq (SInt (quizzes_id r)) (bind_param id))
       (quizzes (db w)) = Some (quiz view)
  /\ quiz_questions view
     = map format_question (select_questions (bind_param id) (db w)).
Proof.
  destruct w as [s f]; unfold getQuizById; run.
  destruct f as [| [|] f]; cbn; try discriminate.
  all: destruct (find _ (quizzes s)) as [row |]; cbn; try discriminate.
  all: try (intros H; injection H as <-; cbn; auto).
  all: destruct f as [| [|] f]; cbn; try discriminate.
  all: intros H; injection H as <-; cbn; auto.
Qed.

(** X14. Whatever the store holds, a quiz that Get-Quiz returns is a
    stored quiz row with the requested id, and its questions are exactly
    the stored question rows of that quiz, each once, in non-decreasing
    question_order. *)
Theorem get_quiz_returns_its_questions_in_order :
  forall (n : Z) (w : world) (view : quiz_view),
    fst (getQuizById (JNum n) w) = DbOk (Some view) ->
    In (quiz view) (quizzes (db w))
    /\ quizzes_id (quiz view) = n
    /\ exists rows,
         quiz_questions view = map format_question rows
         /\ Permutation rows
              (filter (fun r => sql_eq (questions_quiz_id r) (SInt n))
                      (questions (db w)))
         /\ Sorted (fun a b => order_le a b = true) rows.
Proof.
  intros n w view H.
  apply getQuizById_inv in H as [Hfind Hqs].
  apply find_some in Hfind as [Hin Heq]. cbn in Heq.
  apply Z.eqb_eq in Heq.
  split; [exact Hin |]. split; [exact Heq |].
  exists (select_questions (SInt n) (db w)).
  split; [exact Hqs |]. unfold select_questions. split.
  - apply sort_by_perm.
  - apply sort_by_sorted. intros a b. apply sql_le_total.
Qed.

Lemma get_quiz_returns_its_questions_in_order_witness :
  In (quiz ann_quiz_view) (quizzes (db ann_quiz))
  /\ quizzes_id (quiz ann_quiz_view) = 1
  /\ exists rows,
       quiz_questions ann_quiz_view = map format_question rows
       /\ Permutation rows
            (filter (fun r => sql_eq (questions_quiz_id r) (SInt 1))
                    (questions (db ann_quiz)))
       /\ Sorted (fun a b => order_le a b = true) rows.
Proof.
  apply (get_quiz_returns_its_questions_in_order 1 ann_quiz ann_quiz_view).
  reflexivity.
Defined.

Lemma format_question_dense (r : question_row) :
  Forall (fun o => o <> JNull /\ o <> JStr "")
         (options (format_question r))
  /\ (List.length (options (format_question r)) <= 4)%nat.
Proof.
  unfold format_question; cbn [options]. split.
  - apply Forall_forall. intros o Ho. apply filter_In in Ho as [_ Ho].
    split; intros ->; discriminate.
  - match goal with
    | |- (List.length (filter ?f ?l) <= _)%nat =>
        pose proof (filter_length_le f l) as H; cbn in H; cbn; lia
    end.
Qed.

(** X15. In every quiz that Get-Quiz answers with, the options of each
    question are dense: none of them is null or the empty string, and
    there are at most four. *)
Theorem returned_options_are_dense :
  forall (reader : authorization) (id : option Z) (w : world)
         (view : quiz_view),
    fst (get_quiz reader id w) = reply 200 (Quiz view) ->
    Forall (fun q => Forall (fun o => o <> JNull /\ o <> JStr "")
                            (options q)
                     /\ (List.length (options q) <= 4)%nat)
           (quiz_questions view).
Proof.
  intros reader id w view H. unfold get_quiz in H.
  destruct (authenticateToken reader) as [r | user] eqn:Ha.
  { destruct reader; cbn in Ha; inversion Ha; subst; discriminate. }
  unfold bind in H.
  pose proof (getQuizById_inv (parseInt id) w) as Hinv.
  destruct (getQuizById (parseInt id) w) as [[| [v |]] w1];
    cbn in H; try discriminate.
  injection H as <-.
  destruct (Hinv v eq_refl) as [_ ->].
  apply Forall_forall. intros q Hq.
  apply in_map_iff in Hq as (r & <- & _).
  apply format_question_dense.
Qed.

Lemma returned_options_are_dense_witness :
  Forall (fun q => Forall (fun o => o <> JNull /\ o <> JStr "")
                          (options q)
                   /\ (List.length (options q) <= 4)%nat)
         (quiz_questions ann_quiz_view).
Proof.
  apply (returned_options_are_dense (Bearer bob) (Some 1) ann_quiz).
  reflexivity.
Defined.

(** ** Users: insert and look up *)

Lemma createUser_inv (u e p : jsval) (w w1 : world) (id : Z) :
  createUser u e p w = (DbOk id, w1) ->
  let row := {| users_id := seq_users (db w) + 1;
                users_username := bind_param u;
                users_email := bind_param e;
                users_password := bind_param p |} in
  id = seq_users (db w) + 1
  /\ db w1 = insert_user row (db w)
  /\ existsb (clashes row) (users (db w)) = false
  /\ is_null (bind_param e) = false.
Proof.
  destruct w as [s f]; unfold createUser; run.
  destruct f as [| [|] f]; cbn; try discriminate.
  all: match goal with
       | |- context [if ?c then _ else _] => destruct c eqn:E
       end; cbn; try discriminate.
  all: intros H; injection H as <- <-; cbn.
  all: apply orb_false_iff in E as [E1 E2].
  all: apply orb_false_iff in E1 as [E1 _].
  all: apply orb_false_iff in E1 as [_ E1].
  all: repeat split; assumption.
Qed.

(** X16. A user that [createUser] has inserted with a string for
    username, email and password can be looked up: in a keyed store,
    [getUserById] with the id it returned yields the inserted username
    and email, and [getUserByEmail] with the inserted email yields the
    inserted row, password column included. *)
Theorem created_user_is_found :
  forall (u e p : string) (w w1 : world) (id : Z),
    keyed (db w) = true ->
    createUser (JStr u) (JStr e) (JStr p) w = (DbOk id, w1) ->
    hd false (faults w1) = false ->
    fst (getUserById (JNum id) w1)
    = DbOk (Some {| info_id := id; info_username := SText u;
                    info_email := SText e |})
    /\ fst (getUserByEmail (JStr e) w1)
       = DbOk (Some {| users_id := id; users_username := SText u;
                       users_email := SText e;
                       users_password := SText p |}).
Proof.
  intros u e p w w1 id Hk Hc Hf.
  destruct (createUser_inv (JStr u) (JStr e) (JStr p) w w1 id Hc)
    as (-> & Hdb & Hcl & Hnn).
  unfold keyed in Hk. repeat (apply andb_true_iff in Hk as [Hk ?]).
  pose proof (ascending_bounds _ _ _ Hk) as [_ Hb].
  rewrite Forall_forall in Hb.
  destruct w1 as [s1 f1]; cbn in Hdb, Hf; subst s1.
  unfold getUserById, getUserByEmail; run.
  destruct f1 as [| [|] f1]; cbn in *; try discriminate.
  all: split.
  all: try (rewrite find_app_fresh; [reflexivity | | cbn; apply Z.eqb_refl];
            intros y Hy; cbn; apply Z.eqb_neq;
            specialize (Hb (users_id y) (in_map users_id _ y Hy)); lia).
  all: rewrite find_app_fresh;
    [reflexivity | | cbn; now apply (sql_eq_refl (SText e))].
  all: intros y Hy;
    pose proof (existsb_false_forall _ _ Hcl y Hy) as Hy';
    unfold clashes in Hy'; cbn in Hy';
    now apply orb_false_iff in Hy' as [_ Hy'].
Qed.

Lemma created_user_is_found_witness :
  fst (getUserById (JNum 2)
         {| db := insert_user
                    {| users_id := 2; users_username := SText "carol";
                       users_email := SText "c@example.org";
                       users_password := SText "$2a$10$tea-party" |}
                    (db one_user);
            faults := [] |})
  = DbOk (Some {| info_id := 2; info_username := SText "carol";
                  info_email := SText "c@example.org" |})
  /\ fst (getUserByEmail (JStr "c@example.org")
            {| db := insert_user
                       {| users_id := 2; users_username := SText "carol";
                          users_email := SText "c@example.org";
                          users_password := SText "$2a$10$tea-party" |}
                       (db one_user);
               faults := [] |})
     = DbOk (Some {| users_id := 2;
                     users_username := SText "carol";
                     users_email := SText "c@example.org";
                     users_password := SText "$2a$10$tea-party" |}).
Proof.
  apply (created_user_is_found "carol" "c@example.org" "$2a$10$tea-party"
           one_user).
  - reflexivity.
  - reflexivity.
  - reflexivity.
Defined.

(** ** List-My-Quizzes and List-My-Results *)

Lemma get_my_quizzes_rows (created_at : Z -> sqlval) (user : token)
  (w : world) :
  hd false (faults w) = false ->
  fst (get_my_quizzes created_at (Bearer user) w)
  = Rows (sort_by (newest_first (fun r => created_at (quizzes_id r)))
            (filter (fun r => sql_eq (quizzes_user_id r)
                                     (SInt (userId user)))
                    (quizzes (db w)))).
Proof.
  destruct w as [s f]; cbn; intros Hf.
  unfold get_my_quizzes, getQuizzesByUser; run.
  destruct f as [| [|] f]; cbn in *; try discriminate; reflexivity.
Qed.

(** X17. When the driver reports no error, List-My-Quizzes answers with
    exactly the quiz rows whose user_id is the caller's id, each once,
    newest created_at first; no quiz of another user is ever listed. *)
Theorem my_quizzes_lists_own_quizzes :
  forall (created_at : Z -> sqlval) (user : token) (w : world),
    hd false (faults w) = false ->
    exists rows,
      fst (get_my_quizzes created_at (Bearer user) w) = Rows rows
      /\ Permutation rows
           (filter (fun r => sql_eq (quizzes_user_id r)
                                    (SInt (userId user)))
                   (quizzes (db w)))
      /\ (forall r, In r rows ->
                    quizzes_user_id r = SInt (userId user))
      /\ Sorted (fun a b => sql_le (created_at (quizzes_id b))
                                   (created_at (quizzes_id a)) = true)
                rows.
Proof.
  intros created_at user w Hf.
  eexists. split; [now apply get_my_quizzes_rows |]. split; [| split].
  - apply sort_by_perm.
  - intros r Hr. apply (Permutation_in _ (sort_by_perm _ _)) in Hr.
    apply filter_In in Hr as [_ Hr].
    destruct (quizzes_user_id r) as [| k |]; cbn in Hr; try discriminate.
    apply Z.eqb_eq in Hr. now subst.
  - apply (sort_by_sorted
             (newest_first (fun r => created_at (quizzes_id r)))).
    intros a b. unfold newest_first. apply sql_le_total.
Qed.

Lemma in_join_titles (userId : sqlval) (s : store) (v : titled_result) :
  In v (join_titles userId s)
  <-> In (result v) (quiz_results s)
      /\ sql_eq (quiz_results_user_id (result v)) userId = true
      /\ exists q, In q (quizzes s)
                   /\ sql_eq (quiz_results_quiz_id (result v))
                             (SInt (quizzes_id q)) = true
                   /\ quiz_title v = quizzes_title q.
Proof.
  unfold join_titles. rewrite in_flat_map. split.
  - intros (qr & Hqr & Hv).
    apply filter_In in Hqr as [Hin Hu].
    apply in_map_iff in Hv as (q & <- & Hq).
    apply filter_In in Hq as [Hq Hj]. cbn. eauto 8.
  - intros (Hin & Hu & q & Hq & Hj & Ht).
    exists (result v). split; [now apply filter_In |].
    apply in_map_iff. exists q. split; [| now apply filter_In].
    destruct v; cbn in *; now subst.
Qed.

Lemma get_my_results_rows (completed_at : Z -> sqlval) (user : token)
  (w : world) :
  hd false (faults w) = false ->
  fst (get_my_results completed_at (Bearer user) w)
  = Rows (sort_by
            (newest_first
               (fun v => completed_at (quiz_results_id (result v))))
            (join_titles (SInt (userId user)) (db w))).
Proof.
  destruct w as [s f]; cbn; intros Hf.
  unfold get_my_results, getResultsByUser; run.
  destruct f as [| [|] f]; cbn in *; try discriminate; reflexivity.
Qed.

(** X18. When the driver reports no error, List-My-Results answers with
    the caller's result rows, newest completed_at first, each paired with
    the title of a stored quiz whose id is the result's quiz_id; a result
    is listed exactly when such a quiz row exists, so results of quizzes
    that are no longer stored are left out. *)
Theorem my_results_lists_own_results_with_titles :
  forall (completed_at : Z -> sqlval) (user : token) (w : world),
    hd false (faults w) = false ->
    exists rows,
      fst (get_my_results completed_at (Bearer user) w) = Rows rows
      /\ (forall v,
            In v rows
            <-> In (result v) (quiz_results (db w))
                /\ sql_eq (quiz_results_user_id (result v))
                          (SInt (userId user)) = true
                /\ exists q, In q (quizzes (db w))
                             /\ sql_eq (quiz_results_quiz_id (result v))
                                       (SInt (quizzes_id q)) = true
                             /\ quiz_title v = quizzes_title q)
      /\ Sorted (fun a b =>
                   sql_le (completed_at (quiz_results_id (result b)))
                          (completed_at (quiz_results_id (result a)))
                   = true)
                rows.
Proof.
  intros completed_at user w Hf.
  eexists. split; [now apply get_my_results_rows |]. split.
  - intros v. rewrite <- in_join_titles. split; intros H.
    + exact (Permutation_in _ (sort_by_perm _ _) H).
    + exact (Permutation_in _ (Permutation_sym (sort_by_perm _ _)) H).
  - apply (sort_by_sorted
             (newest_first
                (fun v => completed_at (quiz_results_id (result v))))).
    intros a b. unfold newest_first. apply sql_le_total.
Qed.

(** X19. Once its owner has deleted a quiz, the results recorded for it
    disappear from every List-My-Results answer, although the result rows
    themselves are still stored. *)
Theorem results_of_deleted_quiz_are_not_listed :
  forall (user reader : token) (n : Z) (w : world) (row : quiz_row)
         (completed_at : Z -> sqlval),
    faults w = [] ->
    keyed (db w) = true ->
    In row (quizzes (db w)) ->
    quizzes_id row = n ->
    quizzes_user_id row = SInt (userId user) ->
    let w' := snd (delete_quiz (Bearer user) (Some n) w) in
    quiz_results (db w') = quiz_results (db w)
    /\ exists rows,
         fst (get_my_results completed_at (Bearer reader) w') = Rows rows
         /\ forall v, In v rows ->
                      quiz_results_quiz_id (result v) <> SInt n.
Proof.
  intros user reader n w row completed_at Hf Hk Hin Hid Hown.
  cbv zeta. rewrite (delete_quiz_by_owner user n w row Hf Hk Hin Hid Hown).
  cbn [snd]. split; [reflexivity |].
  eexists. split; [now apply get_my_results_rows |].
  intros v Hv Heq.
  apply (Permutation_in _ (sort_by_perm _ _)) in Hv.
  apply in_join_titles in Hv as (_ & _ & q & Hq & Hj & _).
  cbn [db quizzes set_quizzes] in Hq.
  apply filter_In in Hq as [_ Hq].
  rewrite Heq in Hj; cbn in Hj. apply Z.eqb_eq in Hj.
  rewrite <- Hj, Z.eqb_refl in Hq. discriminate.
Qed.

(** ** Witnesses on sample data *)


Lemma usernames_and_emails_stay_unique_witness :
  distinct_users (users empty_store) = true
  /\ distinct_users (users (db (serve_all toy_bcrypt busy_day one_user)))
     = true.
Proof.
  apply (usernames_and_emails_stay_unique toy_bcrypt busy_day one_user).
  reflexivity.
Defined.

Lemma quiz_references_stay_bounded_witness :
  consistent empty_store = true
  /\ consistent (db (serve_all toy_bcrypt busy_day fresh)) = true.
Proof.
  apply (quiz_references_stay_bounded toy_bcrypt busy_day fresh).
  reflexivity.
Defined.

Lemma owner_delete_removes_quiz_witness :
  fst (delete_quiz (Bearer ann) (Some 1) ann_quiz)
  = reply 200 (Message "Quiz deleted successfully")
  /\ quizzes (db (snd (delete_quiz (Bearer ann) (Some 1) ann_quiz)))
     = filter (fun r => negb (quizzes_id r =? 1)) (quizzes (db ann_quiz))
  /\ questions (db (snd (delete_quiz (Bearer ann) (Some 1) ann_quiz)))
     = filter (fun r => negb (sql_eq (questions_quiz_id r) (SInt 1)))
              (questions (db ann_quiz))
  /\ (forall reader,
        get_quiz (Bearer reader) (Some 1)
          (snd (delete_quiz (Bearer ann) (Some 1) ann_quiz))
        = (reply 404 (Error "Quiz not found"),
           snd (delete_quiz (Bearer ann) (Some 1) ann_quiz))).
Proof.
  apply (owner_delete_removes_quiz ann 1 ann_quiz ann_quiz_row).
  - reflexivity.
  - reflexivity.
  - left; reflexivity.
  - reflexivity.
  - reflexivity.
Defined.

Lemma my_quizzes_lists_own_quizzes_witness :
  exists rows,
    fst (get_my_quizzes stamp_of_id (Bearer ann) ann_quiz) = Rows rows
    /\ Permutation rows
         (filter (fun r => sql_eq (quizzes_user_id r) (SInt (userId ann)))
                 (quizzes (db ann_quiz)))
    /\ (forall r, In r rows -> quizzes_user_id r = SInt (userId ann))
    /\ Sorted (fun a b => sql_le (stamp_of_id (quizzes_id b))
                                 (stamp_of_id (quizzes_id a)) = true)
              rows.
Proof.
  apply (my_quizzes_lists_own_quizzes stamp_of_id ann ann_quiz).
  reflexivity.
Defined.

Lemma my_results_lists_own_results_with_titles_witness :
  exists rows,
    fst (get_my_results stamp_of_id (Bearer ann) ann_played) = Rows rows
    /\ (forall v,
          In v rows
          <-> In (result v) (quiz_results (db ann_played))
              /\ sql_eq (quiz_results_user_id (result v))
                        (SInt (userId ann)) = true
              /\ exists q, In q (quizzes (db ann_played))
                           /\ sql_eq (quiz_results_quiz_id (result v))
                                     (SInt (quizzes_id q)) = true
                           /\ quiz_title v = quizzes_title q)
    /\ Sorted (fun a b =>
                 sql_le (stamp_of_id (quiz_results_id (result b)))
                        (stamp_of_id (quiz_results_id (result a)))
                 = true)
              rows.
Proof.
  apply (my_results_lists_own_results_with_titles stamp_of_id ann
           ann_played).
  reflexivity.
Defined.

Lemma results_of_deleted_quiz_are_not_listed_witness :
  quiz_results (db (snd (delete_quiz (Bearer ann) (Some 1) ann_played)))
  = quiz_results (db ann_played)
  /\ exists rows,
       fst (get_my_results stamp_of_id (Bearer ann)
              (snd (delete_quiz (Bearer ann) (Some 1) ann_played)))
       = Rows rows
       /\ forall v, In v rows ->
                    quiz_results_quiz_id (result v) <> SInt 1.
Proof.
  apply (results_of_deleted_quiz_are_not_listed ann ann 1 ann_played
           ann_quiz_row stamp_of_id).
  - reflexivity.
  - reflexivity.
  - left; reflexivity.
  - reflexivity.
  - reflexivity.
Defined.

(** An end-to-end run: Ann's played quiz is listed with its title; after
    she deletes the quiz the listing is empty, while the result row is
    still stored. *)
Example listing_before_and_after_delete :
  fst (get_my_results stamp_of_id (Bearer ann) ann_played)
  = Rows [ {| result := {| quiz_results_id := 1;
                           quiz_results_quiz_id := SInt 1;
                           quiz_results_user_id := SInt 1;
                           quiz_results_score := SInt 2;
                           quiz_results_total_questions := SInt 2;
                           quiz_results_time_taken := SInt 30;
                           quiz_results_answers := SText "[0,1]" |};
              quiz_title := SText "Capitals" |} ]
  /\ fst (get_my_results stamp_of_id (Bearer ann)
            (snd (delete_quiz (Bearer ann) (Some 1) ann_played)))
     = Rows []
  /\ List.length
       (quiz_results
          (db (snd (delete_quiz (Bearer ann) (Some 1) ann_played))))
     = 1%nat.
Proof. repeat split. Qed.

(** ** Values the validation lets through *)

(** X20. The length check of Register applies to strings only: a
    password that is [true] or a non-zero number passes validation; with
    an unused email (a string) the request then fails in bcrypt with 500
    "Server error", and no user is created. *)
Theorem register_non_string_password :
  forall (B : Bcrypt) (body : register_body) (w : world) (e : string),
    truthy (reg_username body) = true ->
    reg_email body = JStr e ->
    truthy (reg_email body) = true ->
    truthy (reg_password body) = true ->
    (forall p, reg_password body <> JStr p) ->
    email_taken (db w) (reg_email body) = false ->
    hd false (faults w) = false ->
    fst (post_register body w) = reply 500 (Error "Server error")
    /\ db (snd (post_register body w)) = db w.
Proof.
  intros B body [s f] e Hu _ He Hp Hns Het Hf.
  unfold post_register, getUserByEmail, email_taken in *.
  rewrite Hu, He, Hp.
  assert (Hl : shorter_than_6 (reg_password body) = false).
  { destruct (reg_password body) as [| | | | | p]; try reflexivity.
    now destruct (Hns p). }
  rewrite Hl; run.
  destruct f as [| [|] f]; cbn in *; try discriminate.
  all: rewrite (find_none_existsb _ _ Het).
  all: destruct (reg_password body) as [| | | | | p]; cbn; auto.
  all: now destruct (Hns p).
Qed.

Lemma register_non_string_password_witness :
  fst (@post_register toy_bcrypt
         {| reg_username := JStr "dave"; reg_email := JStr "d@example.org";
            reg_password := JNum 123 |} one_user)
  = reply 500 (Error "Server error")
  /\ db (snd (@post_register toy_bcrypt
                {| reg_username := JStr "dave";
                   reg_email := JStr "d@example.org";
                   reg_password := JNum 123 |} one_user))
     = db one_user.
Proof.
  apply (register_non_string_password toy_bcrypt
           {| reg_username := JStr "dave"; reg_email := JStr "d@example.org";
              reg_password := JNum 123 |} one_user "d@example.org").
  - reflexivity.
  - reflexivity.
  - reflexivity.
  - reflexivity.
  - intros p H; discriminate.
  - reflexivity.
  - reflexivity.
Defined.

(** X21. With a password that is [true] or a non-zero number, and an
    email that is a string, Login tells a registered email from an unknown
    one: the registered email is answered 500 "Server error", because
    bcrypt refuses the comparison, and the unknown one 400 "Invalid
    credentials". *)
Theorem login_non_string_password :
  forall (B : Bcrypt) (body : login_body) (w : world) (e : string),
    login_email body = JStr e ->
    truthy (login_email body) = true ->
    truthy (login_password body) = true ->
    (forall p, login_password body <> JStr p) ->
    hd false (faults w) = false ->
    fst (post_login body w)
    = if email_taken (db w) (login_email body)
      then reply 500 (Error "Server error")
      else reply 400 (Error "Invalid credentials").
Proof.
  intros B body [s f] e _ He Hp Hns Hf.
  unfold post_login, getUserByEmail, email_taken.
  rewrite He, Hp; run.
  destruct f as [| [|] f]; cbn in *; try discriminate.
  all: match goal with
       | |- context [existsb ?g ?l] => destruct (existsb g l) eqn:Ht
       end.
  all: try (now rewrite (find_none_existsb _ _ Ht)).
  all: destruct (find_some_existsb _ _ Ht) as [u ->].
  all: destruct (login_password body) as [| | | | | p]; cbn; auto.
  all: now destruct (Hns p).
Qed.

Lemma login_non_string_password_witness :
  fst (@post_login toy_bcrypt
         {| login_email := JStr "alice@example.org";
            login_password := JNum 7 |} one_user)
  = reply 500 (Error "Server error")
  /\ fst (@post_login toy_bcrypt
            {| login_email := JStr "nobody@example.org";
               login_password := JNum 7 |} one_user)
     = reply 400 (Error "Invalid credentials").
Proof.
  split.
  - apply (login_non_string_password toy_bcrypt
             {| login_email := JStr "alice@example.org";
                login_password := JNum 7 |} one_user "alice@example.org").
    + reflexivity.
    + reflexivity.
    + reflexivity.
    + intros p H; discriminate.
    + reflexivity.
  - apply (login_non_string_password toy_bcrypt
             {| login_email := JStr "nobody@example.org";
                login_password := JNum 7 |} one_user "nobody@example.org").
    + reflexivity.
    + reflexivity.
    + reflexivity.
    + intros p H; discriminate.
    + reflexivity.
Defined.

(** X22. Save-Quiz-Result lets through what the table then refuses: with
    quizId, totalQuestions and timeTaken truthy, a score of null or a body
    without answers passes validation; when the driver reports no error
    of its own, the INSERT violates NOT NULL, and the reply is 500
    "Failed to save results" with nothing stored. *)
Theorem save_result_null_score_or_no_answers :
  forall (user : token) (body : result_body) (w : world),
    truthy (b_quizId body) = true ->
    truthy (b_totalQuestions body) = true ->
    truthy (b_timeTaken body) = true ->
    b_score body = JNull \/ (b_score body <> JUndefined
                             /\ b_answers body = None) ->
    hd false (faults w) = false ->
    fst (post_quiz_results (Bearer user) body w)
    = reply 500 (Error "Failed to save results")
    /\ db (snd (post_quiz_results (Bearer user) body w)) = db w.
Proof.
  intros user body [s f] Hq Ht Htt Hbad Hf.
  unfold post_quiz_results, saveResult; cbn [authenticateToken].
  rewrite Hq, Ht, Htt.
  assert (Hdef : is_undefined (b_score body) = false).
  { destruct Hbad as [-> | [Hs _]]; [reflexivity |].
    destruct (b_score body); try reflexivity. now destruct Hs. }
  rewrite Hdef; run.
  destruct f as [| [|] f]; cbn in *; try discriminate.
  all: destruct Hbad as [-> | [_ ->]]; cbn;
    rewrite ?orb_true_r; cbn; auto.
Qed.

Lemma save_result_null_score_or_no_answers_witness :
  fst (post_quiz_results (Bearer ann)
         {| b_quizId := JNum 1; b_score := JNull;
            b_totalQuestions := JNum 2; b_timeTaken := JNum 30;
            b_answers := Some "[0,1]"%string |} ann_quiz)
  = reply 500 (Error "Failed to save results")
  /\ db (snd (post_quiz_results (Bearer ann)
                {| b_quizId := JNum 1; b_score := JNull;
                   b_totalQuestions := JNum 2; b_timeTaken := JNum 30;
                   b_answers := Some "[0,1]"%string |} ann_quiz))
     = db ann_quiz.
Proof.
  apply (save_result_null_score_or_no_answers ann
           {| b_quizId := JNum 1; b_score := JNull;
              b_totalQuestions := JNum 2; b_timeTaken := JNum 30;
              b_answers := Some "[0,1]"%string |} ann_quiz).
  - reflexivity.
  - reflexivity.
  - reflexivity.
  - left; reflexivity.
  - reflexivity.
Defined.
